(** * nar.base: the knowledge-graph object layer

    A shallow embedding of [client/nar/base.py]: the class registry, the
    identity cache, the create/update/exists protocol of [KGObject], the
    lazy references [KGProxy] and [KGQuery], the cardinality normaliser
    [build_kg_object], the [OntologyTerm] codec and [as_list].

    Python objects with identity ([KGObject] instances) live in a heap and
    are named by their location; the class attribute [KGObject.cache] is a
    finite map shared by every operation; the client (the transport) is an
    abstract collaborator with a state of its own, and every call made to it
    is recorded in a log.  Exceptions are values of [exn]; a computation
    that raises keeps the side effects performed before the raise. *)

From Stdlib Require Import ZArith String Ascii List Lia.
From stdpp Require Import base option list gmap strings pretty.

Local Open Scope string_scope.
Local Open Scope list_scope.

#[local] Set Warnings "-register-all".

(** ** Exceptions and results *)

Inductive exn :=
| TypeError
| ValueError
| KeyError
| AttributeError
| AssertionError
| NotImplementedError
| ResourceExistsError
| TransportError (msg : string)   (* whatever the client itself raises *)
| InvalidReference.               (* a location outside the heap; no Python
                                     program holds one *)

Inductive result (A : Type) :=
| Ok (a : A)
| Raise (e : exn).
Arguments Ok {A} a.
Arguments Raise {A} e.

Definition rbind {A B} (r : result A) (k : A -> result B) : result B :=
  match r with
  | Ok a => k a
  | Raise e => Raise e
  end.

Global Instance result_ret : MRet result := fun A a => Ok a.
Global Instance result_bind : MBind result := fun A B k r => rbind r k.

(** [for x in xs: ys.append(f x)], stopping at the first exception. *)
Fixpoint rmap {A B} (f : A -> result B) (xs : list A) : result (list B) :=
  match xs with
  | [] => Ok []
  | x :: xs' =>
      match f x with
      | Ok y =>
          match rmap f xs' with
          | Ok ys => Ok (y :: ys)
          | Raise e => Raise e
          end
      | Raise e => Raise e
      end
  end.

(** ** Documents

    A document is a JSON value: what [instance.data] holds and what the
    store exchanges.  Identifiers are document values too (the value found
    under ["@id"]).  A mapping is an association list read at its first
    binding; numbers are integers. *)

Inductive json :=
| JNull
| JBool (b : bool)
| JNum (z : Z)
| JStr (s : string)
| JList (l : list json)
| JDict (d : list (string * json)).

Definition dict := list (string * json).

Fixpoint dict_get (d : dict) (k : string) : option json :=
  match d with
  | [] => None
  | (k', v) :: d' => if String.eqb k' k then Some v else dict_get d' k
  end.

(** [k in d] for a mapping [d]. *)
Definition dict_has (d : dict) (k : string) : bool :=
  match dict_get d k with Some _ => true | None => false end.

(** Python truth value of a document value ([if x:], [x or y]). *)
Definition truthy (x : json) : bool :=
  match x with
  | JNull => false
  | JBool b => b
  | JNum z => negb (Z.eqb z 0)
  | JStr s => negb (String.eqb s EmptyString)
  | JList l => match l with [] => false | _ => true end
  | JDict d => match d with [] => false | _ => true end
  end.

(** [x[k]] with a string subscript [k]: a mapping is looked up, anything
    else does not accept a string subscript. *)
Definition getitem (x : json) (k : string) : result json :=
  match x with
  | JDict d =>
      match dict_get d k with
      | Some v => Ok v
      | None => Raise KeyError
      end
  | _ => Raise TypeError
  end.

Definition chars (s : string) : list string :=
  map (fun c => String c EmptyString) (list_ascii_of_string s).

(** [for item in x]: the elements of a list, the characters of a string,
    the keys of a mapping; other values are not iterable. *)
Definition iterate (x : json) : result (list json) :=
  match x with
  | JList l => Ok l
  | JStr s => Ok (map JStr (chars s))
  | JDict d => Ok (map (fun kv => JStr (fst kv)) d)
  | _ => Raise TypeError
  end.

(** Dictionary keys.  [True] and [1] are the same key, lists and mappings
    are unhashable. *)
Inductive key :=
| KNone
| KInt (z : Z)
| KStr (s : string).

Global Instance key_eq_dec : EqDecision key.
Proof. solve_decision. Defined.

Definition key_to_sum (k : key) : unit + (Z + string) :=
  match k with
  | KNone => inl tt
  | KInt z => inr (inl z)
  | KStr s => inr (inr s)
  end.

Definition key_of_sum (x : unit + (Z + string)) : key :=
  match x with
  | inl _ => KNone
  | inr (inl z) => KInt z
  | inr (inr s) => KStr s
  end.

Global Instance key_countable : Countable key.
Proof.
  apply (inj_countable' key_to_sum key_of_sum).
  intros []; reflexivity.
Defined.

Definition hash_key (x : json) : result key :=
  match x with
  | JNull => Ok KNone
  | JBool b => Ok (KInt (Z.b2z b))
  | JNum z => Ok (KInt z)
  | JStr s => Ok (KStr s)
  | JList _ | JDict _ => Raise TypeError
  end.

(** ** Classes

    What the code reads of a class: its name, and for an entity class its
    [path] and, when the class declares one, its [property_names]; for an
    ontology-term class its [iri_map], when declared. *)

Record KGClass := {
  cls_name : string;
  cls_path : string;
  property_names : option (list string)
}.

Record TermClass := {
  term_name : string;
  iri_map : option dict
}.

(** The first argument of [build_kg_object]: a subclass of [OntologyTerm],
    a subclass of [KGObject], or some other class. *)
Inductive target :=
| TOntologyTerm (c : TermClass)
| TKGObject (c : KGClass)
| TOther.

(** ** Run-time values

    [loc] names a [KGObject] instance in the heap. *)

Definition loc := nat.

Record OntologyTerm := {
  term_cls : TermClass;
  label : json;
  iri : json
}.

Record KGProxy := {
  proxy_cls : KGClass;
  proxy_id : json
}.

Inductive value :=
| VNone
| VBool (b : bool)
| VInt (z : Z)
| VStr (s : string)
| VList (l : list value)
| VTuple (l : list value)
| VDict (d : list (string * value))
| VTerm (t : OntologyTerm)
| VProxy (p : KGProxy)
| VObj (l : loc).

(** ** OntologyTerm *)

(** [self.iri_map[label]] *)
Definition iri_map_lookup (c : TermClass) (lbl : json) : result json :=
  match iri_map c with
  | None => Raise AttributeError
  | Some m =>
      match hash_key lbl with
      | Raise e => Raise e
      | Ok (KStr s) =>
          match dict_get m s with
          | Some v => Ok v
          | None => Raise KeyError
          end
      | Ok _ => Raise KeyError
      end
  end.

(** [OntologyTerm.__init__(self, label, iri=None)] *)
Definition OntologyTerm_init (c : TermClass) (lbl i : json) : result OntologyTerm :=
  if truthy i then Ok {| term_cls := c; label := lbl; iri := i |}
  else
    match iri_map_lookup c lbl with
    | Ok i' => Ok {| term_cls := c; label := lbl; iri := i' |}
    | Raise e => Raise e
    end.

Definition to_jsonld (t : OntologyTerm) : json :=
  JDict [("@id", iri t); ("label", label t)].

Definition from_jsonld (c : TermClass) (data : json) : result value :=
  match data with
  | JNull => Ok VNone
  | _ =>
      lbl ← getitem data "label";
      i ← getitem data "@id";
      t ← OntologyTerm_init c lbl i;
      Ok (VTerm t)
  end.

(** [x.to_jsonld()] for a run-time value [x]: only terms have the method. *)
Definition value_to_jsonld (x : value) : result json :=
  match x with
  | VTerm t => Ok (to_jsonld t)
  | _ => Raise AttributeError
  end.

(** How [ModelProject.save] writes a field that holds ontology terms
    ([brain_region], [species], [celltype], [abstraction_level]), once it
    has found the field not to be [None]:
    [[t.to_jsonld() for t in x] if isinstance(x, list) else x.to_jsonld()]. *)
Definition terms_to_jsonld (x : value) : result json :=
  match x with
  | VList l => items ← rmap value_to_jsonld l; Ok (JList items)
  | _ => value_to_jsonld x
  end.

(** [OntologyTerm] itself declares no [iri_map]; its subclasses do. *)
Definition OntologyTerm_class : TermClass :=
  {| term_name := "OntologyTerm"; iri_map := None |}.

(** ** build_kg_object *)

(** The body of the loop over the entries. *)
Definition build_item (cls : target) (item : json) : result value :=
  match cls with
  | TOntologyTerm c => from_jsonld c item
  | TKGObject c =>
      i ← getitem item "@id";
      Ok (VProxy {| proxy_cls := c; proxy_id := i |})
  | TOther => Raise ValueError
  end.

Definition build_kg_object (cls : target) (data : json) : result value :=
  match data with
  | JNull => Ok VNone
  | _ =>
      data' ← match data with
               | JList _ => Ok data
               | JDict d =>
                   if dict_has d "@list" then
                     if Nat.eqb (length d) 1 then getitem data "@list"
                     else Raise AssertionError
                   else Ok (JList [data])
               | _ => Raise ValueError
               end;
      items ← iterate data';
      objects ← rmap (build_item cls) items;
      match objects with
      | [o] => Ok o
      | _ => Ok (VList objects)
      end
  end.

(** What the loop of [build_kg_object] appends: [None], a term or a proxy. *)
Definition is_item (v : value) : bool :=
  match v with
  | VNone | VTerm _ | VProxy _ => true
  | _ => false
  end.

Definition proxy_for (c : KGClass) (i : json) : value :=
  VProxy {| proxy_cls := c; proxy_id := i |}.

(** ** as_list *)

(** [list(obj)]: [None] stands for the [TypeError] of a value that is not
    iterable.  Instances of [OntologyTerm], [KGProxy] and [KGObject] define
    no [__iter__]. *)
Definition py_list (obj : value) : option (list value) :=
  match obj with
  | VList l | VTuple l => Some l
  | VStr s => Some (map VStr (chars s))
  | VDict d => Some (map (fun kv => VStr (fst kv)) d)
  | VNone | VBool _ | VInt _ | VTerm _ | VProxy _ | VObj _ => None
  end.

Definition as_list (obj : value) : list value :=
  match py_list obj with
  | Some L => L
  | None => [obj]
  end.

(** ** The class registry *)

Definition register_class (target_class : KGClass)
    (registry : gmap string KGClass) : gmap string KGClass :=
  <[cls_name target_class := target_class]> registry.

Definition lookup (registry : gmap string KGClass) (class_name : string)
    : result KGClass :=
  match registry !! class_name with
  | Some c => Ok c
  | None => Raise KeyError
  end.

(** [KGProxy(cls, uri)]: [cls] is a class name or a class. *)
Definition KGProxy_init (registry : gmap string KGClass)
    (cls : string + KGClass) (uri : json) : result KGProxy :=
  match cls with
  | inl name => c ← lookup registry name; Ok {| proxy_cls := c; proxy_id := uri |}
  | inr c => Ok {| proxy_cls := c; proxy_id := uri |}
  end.

(** ** Raw instances, objects, the client *)

(** What the client returns: an object whose [data] is a document. *)
Record Instance := { data : dict }.

(** [instance.data["@id"]] *)
Definition at_id (instance : Instance) : result json :=
  getitem (JDict (data instance)) "@id".

(** A [KGObject] instance: its class, the attributes set on it, [id] and
    [instance] ([None] is [JNull], respectively [None]). *)
Record KGObj := {
  obj_cls : KGClass;
  obj_attrs : gmap string value;
  obj_id : json;
  obj_instance : option Instance
}.

Definition with_id (o : KGObj) (i : json) : KGObj :=
  {| obj_cls := obj_cls o; obj_attrs := obj_attrs o;
     obj_id := i; obj_instance := obj_instance o |}.

Definition with_instance (o : KGObj) (inst : Instance) : KGObj :=
  {| obj_cls := obj_cls o; obj_attrs := obj_attrs o;
     obj_id := obj_id o; obj_instance := Some inst |}.

(** The property [KGObject.rev]: [self.instance.data.get("nxv:rev", None)]
    when there is an instance (an instance object counts as true),
    [None] otherwise. *)
Definition rev (o : KGObj) : json :=
  match obj_instance o with
  | Some instance => default JNull (dict_get (data instance) "nxv:rev")
  | None => JNull
  end.

(** [KGObject.__init__]: the loop over [properties], then [id] and
    [instance]. *)
Fixpoint set_properties (names : option (list string))
    (properties : list (string * value)) (attrs : gmap string value)
    : result (gmap string value) :=
  match properties with
  | [] => Ok attrs
  | (k, v) :: rest =>
      match names with
      | None => Raise AttributeError
      | Some ns =>
          if bool_decide (k ∈ ns)
          then set_properties names rest (<[k := v]> attrs)
          else Raise TypeError
      end
  end.

Definition KGObject_init (cls : KGClass) (id : json) (instance : option Instance)
    (properties : list (string * value)) : result KGObj :=
  attrs ← set_properties (property_names cls) properties ∅;
  Ok {| obj_cls := cls; obj_attrs := attrs; obj_id := id; obj_instance := instance |}.

(** The calls a client receives. *)
Inductive call :=
| FilterQuery (path : string) (filter context : value)
| CreateNewInstance (path : string) (doc : json)
| UpdateInstance (instance : option Instance)
| InstanceFromFullUri (uri : json).

Definition is_create (c : call) : bool :=
  match c with CreateNewInstance _ _ => true | _ => false end.

(** The client, which the methods below receive as an argument and whose
    code is not part of this module: each of its methods takes the state of
    the store and returns the new state with its reply or the exception it
    raises. *)
Record Client (T : Type) := {
  filter_query : string -> value -> value -> T -> T * result (list Instance);
  create_new_instance : string -> json -> T -> T * result Instance;
  update_instance : option Instance -> T -> T * result Instance;
  instance_from_full_uri : json -> T -> T * result Instance
}.
Arguments filter_query {T} c path filter context st.
Arguments create_new_instance {T} c path doc st.
Arguments update_instance {T} c instance st.
Arguments instance_from_full_uri {T} c uri st.

(** ** The state *)

Record world (T : Type) := {
  heap : list KGObj;            (* the KGObject instances, by location *)
  kg_cache : gmap key loc;      (* KGObject.cache *)
  remote : T;                   (* the store behind the client *)
  calls : list call             (* the calls made so far, oldest first *)
}.
Arguments heap {T} w.
Arguments kg_cache {T} w.
Arguments remote {T} w.
Arguments calls {T} w.

Section Base.
Context {T : Type}.
Variable client : Client T.

(** The body of a concrete class's [from_kg_instance] reads the fields of
    the document; [None] for a class that does not override the method. *)
Variable fields_of : KGClass -> option (dict -> result (gmap string value)).

(** A computation takes the world and returns the world it leaves with
    its value or the exception it raises. *)
Definition M (A : Type) : Type := world T -> world T * result A.

Global Instance M_ret : MRet M := fun A a w => (w, Ok a).
Global Instance M_bind : MBind M := fun A B k m w =>
  match m w with
  | (w', Ok a) => k a w'
  | (w', Raise e) => (w', Raise e)
  end.

Definition raise {A} (e : exn) : M A := fun w => (w, Raise e).

Definition lift {A} (r : result A) : M A := fun w => (w, r).

(** Reading an object, changing its fields in place, creating one. *)
Definition get_obj (l : loc) : M KGObj := fun w =>
  match heap w !! l with
  | Some o => (w, Ok o)
  | None => (w, Raise InvalidReference)
  end.

Definition update_obj (l : loc) (f : KGObj -> KGObj) : M unit := fun w =>
  ({| heap := alter f l (heap w); kg_cache := kg_cache w;
      remote := remote w; calls := calls w |}, Ok tt).

Definition alloc (o : KGObj) : M loc := fun w =>
  ({| heap := heap w ++ [o]; kg_cache := kg_cache w;
      remote := remote w; calls := calls w |}, Ok (length (heap w))).

Definition cache_get (k : key) : M (option loc) := fun w =>
  (w, Ok (kg_cache w !! k)).

Definition cache_put (k : key) (l : loc) : M unit := fun w =>
  ({| heap := heap w; kg_cache := <[k := l]> (kg_cache w);
      remote := remote w; calls := calls w |}, Ok tt).

(** A call to the client: logged, then answered by the store. *)
Definition invoke {A} (c : call) (method : T -> T * result A) : M A := fun w =>
  let '(t', r) := method (remote w) in
  ({| heap := heap w; kg_cache := kg_cache w;
      remote := t'; calls := calls w ++ [c] |}, r).

(** [KGObject.cache[x] = obj] and [x in KGObject.cache] hash [x]. *)
Definition cache_setitem (x : json) (obj : loc) : M unit :=
  k ← lift (hash_key x); cache_put k obj.

Definition cache_find (x : json) : M (option loc) :=
  k ← lift (hash_key x); cache_get k.

(** A constructor call that runs [KGObject.__init__] with the keyword
    arguments [properties]: the caller holds the object only when
    [__init__] returns. *)
Definition KGObject_new (cls : KGClass) (id : json) (instance : option Instance)
    (properties : list (string * value)) : M loc :=
  o ← lift (KGObject_init cls id instance properties);
  alloc o.

(** [self.name] *)
Definition get_name (o : KGObj) : result value :=
  match obj_attrs o !! "name" with
  | Some v => Ok v
  | None => Raise AttributeError
  end.

(** The [query_filter] and the [context] that [exists] builds. *)
Definition name_filter (name : value) : value :=
  VDict [("path", VStr "schema:name"); ("op", VStr "eq"); ("value", name)].

(** The trailing comma of the source makes [context] a one-element tuple. *)
Definition name_context : value :=
  VTuple [VDict [("schema", VStr "http://schema.org/")]].

(** [KGObject.exists(self, client)] *)
Definition KGObject_exists (self : loc) : M bool :=
  o ← get_obj self;
  if truthy (obj_id o) then mret true
  else
    name ← lift (get_name o);
    response ← invoke (FilterQuery (cls_path (obj_cls o)) (name_filter name) name_context)
                      (filter_query client (cls_path (obj_cls o)) (name_filter name) name_context);
    match response with
    | first :: _ =>
        i ← lift (at_id first);
        update_obj self (fun o => with_id o i);;
        mret true
    | [] => mret false
    end.

(** [KGObject._save(self, data, client, exists_ok)]; [doc] is the [data]
    that the [save] of the concrete class has built.  The log messages are
    left out. *)
Definition KGObject_save (self : loc) (doc : json) (exists_ok : bool) : M unit :=
  o ← get_obj self;
  if truthy (obj_id o) then
    instance ← invoke (UpdateInstance (obj_instance o))
                      (update_instance client (obj_instance o));
    update_obj self (fun o => with_instance o instance)
  else
    found ← KGObject_exists self;
    if (found : bool) then
      if exists_ok then mret tt
      else raise ResourceExistsError
    else
      instance ← invoke (CreateNewInstance (cls_path (obj_cls o)) doc)
                        (create_new_instance client (cls_path (obj_cls o)) doc);
      i ← lift (at_id instance);
      update_obj self (fun o => with_id o i);;
      update_obj self (fun o => with_instance o instance);;
      cache_setitem i self.

(** The decorator [cache(f)]: [wrapper(cls, instance, client)]. *)
Definition cache (f : KGClass -> Instance -> M loc)
    (cls : KGClass) (instance : Instance) : M loc :=
  i ← lift (at_id instance);
  hit ← cache_find i;
  match hit with
  | Some obj => mret obj
  | None =>
      obj ← f cls instance;
      o ← get_obj obj;
      cache_setitem (obj_id o) obj;;
      mret obj
  end.

Definition obj_of (cls : KGClass) (attrs : gmap string value) (i : json)
    (instance : Instance) : KGObj :=
  {| obj_cls := cls; obj_attrs := attrs; obj_id := i; obj_instance := Some instance |}.

(** The body shared by the concrete [from_kg_instance] methods:
    [obj = cls(<fields of D>, id=D["@id"], instance=instance)]. *)
Definition construct (read : dict -> result (gmap string value))
    (cls : KGClass) (instance : Instance) : M loc :=
  attrs ← lift (read (data instance));
  i ← lift (at_id instance);
  alloc (obj_of cls attrs i instance).

(** [cls.from_kg_instance(instance, client)]: the decorated method of a
    concrete class, or the method of [KGObject] itself, which raises. *)
Definition from_kg_instance (cls : KGClass) (instance : Instance) : M loc :=
  match fields_of cls with
  | Some read => cache (construct read) cls instance
  | None => raise NotImplementedError
  end.

(** [KGObject.from_uri(cls, uri, client)] *)
Definition from_uri (cls : KGClass) (uri : json) : M loc :=
  instance ← invoke (InstanceFromFullUri uri) (instance_from_full_uri client uri);
  from_kg_instance cls instance.

(** [KGProxy.resolve(self, client)] *)
Definition KGProxy_resolve (self : KGProxy) : M loc :=
  hit ← cache_find (proxy_id self);
  match hit with
  | Some obj => mret obj
  | None =>
      obj ← from_uri (proxy_cls self) (proxy_id self);
      cache_setitem (proxy_id self) obj;;
      mret obj
  end.

(** A [KGQuery] instance, its class looked up already. *)
Record KGQuery := {
  query_cls : KGClass;
  query_filter : value;
  query_context : value
}.

(** [KGQuery(cls, filter, context)]: [cls] is a class name or a class. *)
Definition KGQuery_init (registry : gmap string KGClass)
    (cls : string + KGClass) (filter context : value) : result KGQuery :=
  match cls with
  | inl name =>
      c ← lookup registry name;
      Ok {| query_cls := c; query_filter := filter; query_context := context |}
  | inr c => Ok {| query_cls := c; query_filter := filter; query_context := context |}
  end.

(** [for x in xs] with a body in [M]. *)
Fixpoint mapM {A B} (f : A -> M B) (xs : list A) : M (list B) :=
  match xs with
  | [] => mret []
  | x :: xs' => y ← f x; ys ← mapM f xs'; mret (y :: ys)
  end.

Fixpoint forM {A} (f : A -> M unit) (xs : list A) : M unit :=
  match xs with
  | [] => mret tt
  | x :: xs' => f x;; forM f xs'
  end.

(** [KGQuery.resolve(self, client)] *)
Definition KGQuery_resolve (self : KGQuery) : M value :=
  instances ← invoke (FilterQuery (cls_path (query_cls self)) (query_filter self) (query_context self))
                     (filter_query client (cls_path (query_cls self)) (query_filter self) (query_context self));
  objects ← mapM (from_kg_instance (query_cls self)) instances;
  forM (fun obj => o ← get_obj obj; cache_setitem (obj_id o) obj) objects;;
  match instances, objects with
  | [_], obj :: _ => mret (VObj obj)
  | _, _ => mret (VList (map VObj objects))
  end.

(** The call that [KGQuery.resolve] sends. *)
Definition listing (q : KGQuery) : call :=
  FilterQuery (cls_path (query_cls q)) (query_filter q) (query_context q).

(** The three ways to resolve a resource, and a run of resolutions. *)
Inductive resolution :=
| ByFactory (cls : KGClass) (instance : Instance)
| ByProxy (p : KGProxy)
| ByQuery (q : KGQuery).

Definition resolve (r : resolution) : M value :=
  match r with
  | ByFactory cls instance => obj ← from_kg_instance cls instance; mret (VObj obj)
  | ByProxy p => obj ← KGProxy_resolve p; mret (VObj obj)
  | ByQuery q => KGQuery_resolve q
  end.

Fixpoint run (rs : list resolution) (w : world T) : world T :=
  match rs with
  | [] => w
  | r :: rs' => run rs' (fst (resolve r w))
  end.

(** The object at place [n] of what [KGQuery.resolve] has returned: an
    object returned by itself is at place 0. *)
Definition nth_object (v : value) (n : nat) : option loc :=
  match v with
  | VObj obj => match n with O => Some obj | S _ => None end
  | VList objects =>
      match objects !! n with
      | Some (VObj obj) => Some obj
      | _ => None
      end
  | _ => None
  end.

(** A resolution of identifier [X] that goes through: in world [w] it
    returns object [obj] and leaves world [w'].  It is a call of the
    caching factory of a class on a document whose ["@id"] is [X], or of
    [KGProxy.resolve] on a proxy for [X], or of [KGQuery.resolve], the
    object being then the one at the place of an instance of the answer
    whose ["@id"] is [X]. *)
Inductive resolves (X : json) (w : world T) : world T -> loc -> Prop :=
| resolves_factory (cls : KGClass) (instance : Instance) (w' : world T) (obj : loc) :
    at_id instance = Ok X ->
    from_kg_instance cls instance w = (w', Ok obj) ->
    resolves X w w' obj
| resolves_proxy (p : KGProxy) (w' : world T) (obj : loc) :
    proxy_id p = X ->
    KGProxy_resolve p w = (w', Ok obj) ->
    resolves X w w' obj
| resolves_query (q : KGQuery) (t' : T) (instances : list Instance) (n : nat)
    (instance : Instance) (w' : world T) (v : value) (obj : loc) :
    filter_query client (cls_path (query_cls q)) (query_filter q) (query_context q) (remote w)
      = (t', Ok instances) ->
    instances !! n = Some instance ->
    at_id instance = Ok X ->
    KGQuery_resolve q w = (w', Ok v) ->
    nth_object v n = Some obj ->
    resolves X w w' obj.

(** ** The identity cache as an invariant

    Every cached object is in the heap, its identifier is hashable, and it
    is cached under its own identifier (it may be cached under the
    identifier of a proxy as well). *)
Definition cache_ok (w : world T) : Prop :=
  forall (k : key) (l : loc), kg_cache w !! k = Some l ->
    exists (o : KGObj) (k' : key),
      heap w !! l = Some o /\ hash_key (obj_id o) = Ok k' /\ kg_cache w !! k' = Some l.

(** [w'] has the objects of [w], unchanged, and the cache entries of [w]. *)
Definition extends (w w' : world T) : Prop :=
  heap w `prefix_of` heap w' /\ kg_cache w ⊆ kg_cache w'.

(** The document of [instance] has a hashable ["@id"] and the fields that
    [read] asks for. *)
Definition well_formed (read : dict -> result (gmap string value))
    (instance : Instance) : bool :=
  match at_id instance with
  | Ok i =>
      match hash_key i, read (data instance) with
      | Ok _, Ok _ => true
      | _, _ => false
      end
  | Raise _ => false
  end.

(** [obj] is the cache entry for the identifier of [instance]. *)
Definition cached_as (w : world T) (instance : Instance) (obj : loc) : Prop :=
  exists (i : json) (k : key),
    at_id instance = Ok i /\ hash_key i = Ok k /\ kg_cache w !! k = Some obj.

(** [obj] is cached under its own identifier. *)
Definition cached (w : world T) (obj : loc) : Prop :=
  exists (o : KGObj) (k : key),
    heap w !! obj = Some o /\ hash_key (obj_id o) = Ok k /\ kg_cache w !! k = Some obj.

(** The world once object [o] has been built and cached under [k]. *)
Definition loaded (w : world T) (k : key) (o : KGObj) : world T :=
  {| heap := heap w ++ [o]; kg_cache := <[k := length (heap w)]> (kg_cache w);
     remote := remote w; calls := calls w |}.

(** ** Worlds reached by the protocol, for the statements below *)

(** The world once the name query of [exists] has been answered, the store
    being then [t']. *)
Definition queried (w : world T) (o : KGObj) (name : value) (t' : T) : world T :=
  {| heap := heap w; kg_cache := kg_cache w; remote := t';
     calls := calls w ++ [FilterQuery (cls_path (obj_cls o)) (name_filter name) name_context] |}.

Definition set_heap (w : world T) (h : list KGObj) : world T :=
  {| heap := h; kg_cache := kg_cache w; remote := remote w; calls := calls w |}.

Definition set_cache (w : world T) (c : gmap key loc) : world T :=
  {| heap := heap w; kg_cache := c; remote := remote w; calls := calls w |}.

(** How many [create_new_instance] calls the client has received. *)
Definition creates (w : world T) : nat := length (List.filter is_create (calls w)).

(** The world once the client has answered call [c], the store being then
    [t']. *)
Definition answered (w : world T) (c : call) (t' : T) : world T :=
  {| heap := heap w; kg_cache := kg_cache w; remote := t'; calls := calls w ++ [c] |}.

End Base.

(** ** Documents as run-time values *)

Fixpoint of_json (x : json) : value :=
  match x with
  | JNull => VNone
  | JBool b => VBool b
  | JNum z => VInt z
  | JStr s => VStr s
  | JList l => VList (map of_json l)
  | JDict d => VDict (map (fun '(k, v) => (k, of_json v)) d)
  end.

(** ** A store in memory

    A client over a list of stored instances, to run the operations on:
    [filter_query] answers the name filter of [KGObject.exists],
    [create_new_instance] files the document under a new identifier,
    [update_instance] hands the instance back, [instance_from_full_uri]
    finds a stored instance by its identifier. *)
Module Store.

Definition state := list Instance.

Fixpoint filter_value (d : list (string * value)) : value :=
  match d with
  | [] => VNone
  | (k, v) :: d' => if String.eqb k "value" then v else filter_value d'
  end.

Definition named (filter : value) (i : Instance) : bool :=
  match filter, dict_get (data i) "name" with
  | VDict d, Some (JStr m) =>
      match filter_value d with
      | VStr n => String.eqb n m
      | _ => false
      end
  | _, _ => false
  end.

Definition has_id (uri : json) (i : Instance) : bool :=
  match uri, dict_get (data i) "@id" with
  | JStr a, Some (JStr b) => String.eqb a b
  | _, _ => false
  end.

Definition client : Client state := {|
  filter_query := fun path filter context st =>
    (st, Ok (List.filter (named filter) st));
  create_new_instance := fun path doc st =>
    match doc with
    | JDict d =>
        let i := {| data := ("@id", JStr (path +:+ "/" +:+ pretty (length st))) :: d |} in
        (st ++ [i], Ok i)
    | _ => (st, Raise (TransportError "not a document"))
    end;
  update_instance := fun instance st =>
    match instance with
    | Some i => (st, Ok i)
    | None => (st, Raise (TransportError "nothing to update"))
    end;
  instance_from_full_uri := fun uri st =>
    match List.find (has_id uri) st with
    | Some i => (st, Ok i)
    | None => (st, Raise (TransportError "not found"))
    end
|}.

(** Two entity classes: one with a declared schema, as
    [KGObject.__init__] expects, and a factory reading [name]. *)
Definition Person : KGClass := {|
  cls_name := "Person";
  cls_path := "neuralactivity/core/person/v0.1.0";
  property_names := Some ["name"; "email"]
|}.

Definition ModelProject : KGClass := {|
  cls_name := "ModelProject";
  cls_path := "neuralactivity/simulation/modelproject/v0.1.0";
  property_names := None
|}.

Definition read_name (D : dict) : result (gmap string value) :=
  n ← getitem (JDict D) "name";
  Ok {["name" := of_json n]}.

Definition fields_of (cls : KGClass) : option (dict -> result (gmap string value)) :=
  if String.eqb (cls_name cls) "ValidationResult" then None else Some read_name.

(** An ontology-term class as the entity modules declare them: a name and
    a table from labels to IRIs. *)
Definition Species : TermClass := {|
  term_name := "Species";
  iri_map := Some [("Rattus norvegicus", JStr "http://purl.obolibrary.org/obo/NCBITaxon_10116");
                   ("Mus musculus", JStr "http://purl.obolibrary.org/obo/NCBITaxon_10090")]
|}.

(** A class of the source that declares neither properties nor a factory
    of its own. *)
Definition ValidationResult : KGClass := {|
  cls_name := "ValidationResult";
  cls_path := "neuralactivity/simulation/validationresult/v0.1.1";
  property_names := None
|}.

(** A client that is out of reach, and one whose [create_new_instance]
    answers with the document as it was sent, without an ["@id"]. *)
Definition offline : Client state := {|
  filter_query := fun path filter context st => (st, Raise (TransportError "offline"));
  create_new_instance := fun path doc st => (st, Raise (TransportError "offline"));
  update_instance := fun instance st => (st, Raise (TransportError "offline"));
  instance_from_full_uri := fun uri st => (st, Raise (TransportError "offline"))
|}.

Definition echo : Client state := {|
  filter_query := filter_query client;
  create_new_instance := fun path doc st =>
    match doc with
    | JDict d => (st ++ [{| data := d |}], Ok {| data := d |})
    | _ => (st, Raise (TransportError "not a document"))
    end;
  update_instance := update_instance client;
  instance_from_full_uri := instance_from_full_uri client
|}.

Definition init (st : state) : world state :=
  {| heap := []; kg_cache := ∅; remote := st; calls := [] |}.

Definition doc (id name : string) : Instance :=
  {| data := [("@id", JStr id); ("name", JStr name)] |}.

(** Three stored persons, two of them of the same name; a proxy for a
    stored person and a query by name. *)
Definition people : state :=
  [doc "kg:person/1" "Ada Lovelace"; doc "kg:person/2" "Alan Turing";
   doc "kg:person/3" "Alan Turing"].

Definition proxy (id : string) : KGProxy :=
  {| proxy_cls := Person; proxy_id := JStr id |}.

Definition by_name (name : string) : KGQuery :=
  {| query_cls := Person; query_filter := name_filter (VStr name);
     query_context := name_context |}.

(** A person built by the application, not yet saved: no identifier, no
    instance; and the document its [save] would send. *)
Definition ada : KGObj := {|
  obj_cls := Person;
  obj_attrs := {["name" := VStr "Ada Lovelace"]};
  obj_id := JNull;
  obj_instance := None
|}.

Definition ada_doc : json :=
  JDict [("@type", JStr "nsg:Person"); ("name", JStr "Ada Lovelace")].

Definition with_ada (st : state) : world state :=
  {| heap := [ada]; kg_cache := ∅; remote := st; calls := [] |}.

Definition ada_query : call :=
  FilterQuery "neuralactivity/core/person/v0.1.0"
    (VDict [("path", VStr "schema:name"); ("op", VStr "eq");
            ("value", VStr "Ada Lovelace")])
    (VTuple [VDict [("schema", VStr "http://schema.org/")]]).

End Store.

(** * Properties *)

(** ** as_list *)

Lemma length_chars (s : string) : length (chars s) = String.length s.
Proof.
  unfold chars. rewrite length_map.
  induction s as [|a s IH]; simpl; [reflexivity | now rewrite IH].
Qed.

Lemma concat_chars (s : string) : String.concat EmptyString (chars s) = s.
Proof.
  induction s as [|a s IH]; [reflexivity |].
  change (chars (String a s)) with (String a EmptyString :: chars s).
  destruct s as [|b s]; [reflexivity |].
  change (chars (String b s)) with (String b EmptyString :: chars s) in *.
  simpl in *. now rewrite IH.
Qed.

Lemma chars_single (s : string) : Forall (fun c => String.length c = 1) (chars s).
Proof.
  unfold chars. induction s as [|a s IH]; simpl; constructor; auto.
Qed.

(** C10: [as_list obj] is [list(obj)] when [obj] is iterable (a list, a
    tuple, a mapping giving its keys, a string) and the one-element list
    [[obj]] when it is not ([None], a boolean, a number, a term, a proxy, an
    entity); a string is returned as the list of its characters, one
    one-character string each, as many as the string is long. *)
Theorem as_list_spec (obj : value) (l : list value) (d : list (string * value))
    (s : string) (b : bool) (z : Z) (t : OntologyTerm) (p : KGProxy) (o : loc) :
  as_list obj = default [obj] (py_list obj)
  ∧ as_list (VList l) = l
  ∧ as_list (VTuple l) = l
  ∧ as_list (VDict d) = map (fun kv => VStr (fst kv)) d
  ∧ (as_list (VStr s) = map VStr (chars s)
     ∧ length (as_list (VStr s)) = String.length s
     ∧ Forall (fun c => String.length c = 1) (chars s)
     ∧ String.concat EmptyString (chars s) = s)
  ∧ as_list VNone = [VNone]
  ∧ as_list (VBool b) = [VBool b]
  ∧ as_list (VInt z) = [VInt z]
  ∧ as_list (VTerm t) = [VTerm t]
  ∧ as_list (VProxy p) = [VProxy p]
  ∧ as_list (VObj o) = [VObj o].
Proof.
  repeat split; try reflexivity.
  - unfold as_list; simpl. now rewrite length_map, length_chars.
  - apply chars_single.
  - apply concat_chars.
Qed.

(** ** OntologyTerm *)

Lemma from_jsonld_dict (c : TermClass) (d : dict) (lbl i : json) :
  dict_get d "label" = Some lbl ->
  dict_get d "@id" = Some i ->
  from_jsonld c (JDict d) =
    match OntologyTerm_init c lbl i with
    | Ok t => Ok (VTerm t)
    | Raise e => Raise e
    end.
Proof.
  intros Hl Hi. unfold from_jsonld, getitem, mbind, result_bind, rbind.
  now rewrite Hl, Hi.
Qed.

Lemma OntologyTerm_init_fields (c : TermClass) (lbl i : json) (t : OntologyTerm) :
  OntologyTerm_init c lbl i = Ok t ->
  term_cls t = c ∧ label t = lbl
  ∧ (truthy (iri t) = false -> iri_map_lookup c lbl = Ok (iri t)).
Proof.
  unfold OntologyTerm_init. destruct (truthy i) eqn:Hi.
  - intros [= <-]. simpl. repeat split. congruence.
  - destruct (iri_map_lookup c lbl) as [i'|e]; [| discriminate].
    intros [= <-]. simpl. repeat split.
Qed.

(** C8, as the code has it: decoding [None] gives [None]; a mapping with a
    [label] field and an ["@id"] field whose value is true in the Python
    sense (neither [None] nor empty) decodes to a term that encodes back
    to exactly these two fields; and so does the encoding of any term [t0]
    that the constructor of the class has built: it decodes to [t0]. *)
Theorem from_jsonld_to_jsonld (c : TermClass) (d : dict) (lbl i : json)
    (lbl0 i0 : json) (t0 : OntologyTerm) :
  dict_get d "label" = Some lbl ->
  dict_get d "@id" = Some i ->
  truthy i = true ->
  OntologyTerm_init c lbl0 i0 = Ok t0 ->
  from_jsonld c JNull = Ok VNone
  ∧ (∃ t, from_jsonld c (JDict d) = Ok (VTerm t)
          ∧ to_jsonld t = JDict [("@id", i); ("label", lbl)]
          ∧ getitem (to_jsonld t) "label" = getitem (JDict d) "label"
          ∧ getitem (to_jsonld t) "@id" = getitem (JDict d) "@id")
  ∧ from_jsonld c (to_jsonld t0) = Ok (VTerm t0).
Proof.
  intros Hl Hi Ht H0. split; [reflexivity |]. split.
  - rewrite (from_jsonld_dict c d lbl i Hl Hi).
    unfold OntologyTerm_init. rewrite Ht.
    eexists. split; [reflexivity |].
    unfold to_jsonld, getitem; simpl. now rewrite Hl, Hi.
  - destruct (OntologyTerm_init_fields c lbl0 i0 t0 H0) as (Hc & Hlbl & Hmap).
    unfold to_jsonld.
    rewrite (from_jsonld_dict c [("@id", iri t0); ("label", label t0)]
               (label t0) (iri t0) eq_refl eq_refl).
    unfold OntologyTerm_init. rewrite Hlbl.
    destruct (truthy (iri t0)) eqn:Hiri.
    + destruct t0; simpl in *; now subst.
    + rewrite (Hmap eq_refl). destruct t0; simpl in *; now subst.
Qed.

Lemma from_jsonld_to_jsonld_witness :
  let rat := "http://purl.obolibrary.org/obo/NCBITaxon_10116" in
  let d := [("label", JStr "Rattus norvegicus"); ("@id", JStr rat)] in
  let t0 := {| term_cls := Store.Species; label := JStr "Rattus norvegicus";
               iri := JStr rat |} in
  dict_get d "label" = Some (JStr "Rattus norvegicus")
  ∧ truthy (JStr rat) = true
  ∧ OntologyTerm_init Store.Species (JStr "Rattus norvegicus") JNull = Ok t0
  ∧ (∃ t, from_jsonld Store.Species (JDict d) = Ok (VTerm t)
          ∧ to_jsonld t = JDict [("@id", JStr rat); ("label", JStr "Rattus norvegicus")])
  ∧ from_jsonld Store.Species (to_jsonld t0) = Ok (VTerm t0).
Proof.
  intros rat d t0. split; [reflexivity |]. split; [reflexivity |].
  split; [reflexivity |].
  destruct (from_jsonld_to_jsonld Store.Species d (JStr "Rattus norvegicus") (JStr rat)
              (JStr "Rattus norvegicus") JNull t0 eq_refl eq_refl eq_refl eq_refl)
    as (_ & [t (Hd & He & _)] & H0).
  split; [exists t; split; assumption | exact H0].
Defined.

(** C8 as the specification words it fails on a mapping that has both
    fields but an empty ["@id"]: the constructor takes the IRI from the
    class's [iri_map], so the encoding carries another ["@id"]; where the
    label is not in the table, decoding raises [KeyError], and in
    [OntologyTerm] itself, which has no table, [AttributeError]. *)
Lemma from_jsonld_empty_id_counterexample :
  let d := [("label", JStr "Rattus norvegicus"); ("@id", JStr EmptyString)] in
  let d' := [("label", JStr "Felis catus"); ("@id", JStr EmptyString)] in
  dict_get d "label" = Some (JStr "Rattus norvegicus")
  ∧ dict_get d "@id" = Some (JStr EmptyString)
  ∧ (∃ t, from_jsonld Store.Species (JDict d) = Ok (VTerm t)
          ∧ getitem (to_jsonld t) "@id"
            = Ok (JStr "http://purl.obolibrary.org/obo/NCBITaxon_10116")
          ∧ getitem (to_jsonld t) "@id" ≠ getitem (JDict d) "@id")
  ∧ from_jsonld Store.Species (JDict d') = Raise KeyError
  ∧ from_jsonld OntologyTerm_class (JDict d) = Raise AttributeError.
Proof.
  intros d d'.
  split; [reflexivity |]. split; [reflexivity |].
  split; [| split; reflexivity].
  exists {| term_cls := Store.Species; label := JStr "Rattus norvegicus";
            iri := JStr "http://purl.obolibrary.org/obo/NCBITaxon_10116" |}.
  split; [reflexivity |]. split; [reflexivity |].
  vm_compute. discriminate.
Qed.

(** ** build_kg_object *)

Lemma build_kg_object_list (cls : target) (l : list json) :
  build_kg_object cls (JList l) =
    match rmap (build_item cls) l with
    | Ok [o] => Ok o
    | Ok objects => Ok (VList objects)
    | Raise e => Raise e
    end.
Proof.
  unfold build_kg_object; simpl.
  unfold mbind, result_bind, rbind.
  destruct (rmap (build_item cls) l) as [[|o [|o' os]]|]; reflexivity.
Qed.

Lemma build_kg_object_bare (cls : target) (d : dict) :
  dict_has d "@list" = false ->
  build_kg_object cls (JDict d) = build_kg_object cls (JList [JDict d]).
Proof.
  intros H. unfold build_kg_object. now rewrite H.
Qed.

Lemma build_kg_object_wrapped (cls : target) (x : json) :
  build_kg_object cls (JDict [("@list", x)]) =
    match iterate x with
    | Ok items => build_kg_object cls (JList items)
    | Raise e => Raise e
    end.
Proof.
  unfold build_kg_object; simpl.
  destruct (iterate x); reflexivity.
Qed.

Lemma build_item_proxy (c : KGClass) (d : dict) (i : json) :
  dict_get d "@id" = Some i ->
  build_item (TKGObject c) (JDict d) = Ok (VProxy {| proxy_cls := c; proxy_id := i |}).
Proof.
  intros H. unfold build_item, getitem, mbind, result_bind, rbind. now rewrite H.
Qed.

(** C7, as the code has it.  [None] is mapped to [None]; for an entity
    class, a mapping with an ["@id"] (and no ["@list"] key) gives one
    unresolved proxy, a list of two such mappings gives the list of their
    two proxies, and a mapping wrapped as the only element under ["@list"]
    gives what the bare mapping gives; the call raises [ValueError] when
    the class is neither an ontology term nor an entity class and the input
    holds at least one entry, and when the input is a boolean, a number or
    a string. *)
Theorem build_kg_object_spec (cls : target) (c : KGClass) (d d1 d2 : dict)
    (i i1 i2 e : json) (rest : list json) (b : bool) (z : Z) (s : string) :
  dict_has d "@list" = false ->
  dict_get d "@id" = Some i ->
  dict_get d1 "@id" = Some i1 ->
  dict_get d2 "@id" = Some i2 ->
  build_kg_object cls JNull = Ok VNone
  ∧ build_kg_object (TKGObject c) (JDict d)
    = Ok (VProxy {| proxy_cls := c; proxy_id := i |})
  ∧ build_kg_object (TKGObject c) (JList [JDict d1; JDict d2])
    = Ok (VList [VProxy {| proxy_cls := c; proxy_id := i1 |};
                 VProxy {| proxy_cls := c; proxy_id := i2 |}])
  ∧ build_kg_object cls (JDict [("@list", JList [JDict d])])
    = build_kg_object cls (JDict d)
  ∧ build_kg_object TOther (JList (e :: rest)) = Raise ValueError
  ∧ build_kg_object TOther (JDict d) = Raise ValueError
  ∧ build_kg_object TOther (JDict [("@list", JList (e :: rest))]) = Raise ValueError
  ∧ build_kg_object cls (JBool b) = Raise ValueError
  ∧ build_kg_object cls (JNum z) = Raise ValueError
  ∧ build_kg_object cls (JStr s) = Raise ValueError.
Proof.
  intros Hl Hi H1 H2.
  split; [reflexivity |].
  split.
  { rewrite (build_kg_object_bare _ _ Hl), build_kg_object_list. cbn [rmap].
    now rewrite (build_item_proxy c d i Hi). }
  split.
  { rewrite build_kg_object_list. cbn [rmap].
    now rewrite (build_item_proxy c d1 i1 H1), (build_item_proxy c d2 i2 H2). }
  split.
  { rewrite build_kg_object_wrapped. cbn [iterate]. symmetry.
    now apply build_kg_object_bare. }
  split; [now rewrite build_kg_object_list |].
  split; [now rewrite (build_kg_object_bare _ _ Hl), build_kg_object_list |].
  split; [rewrite build_kg_object_wrapped; cbn [iterate]; now rewrite build_kg_object_list |].
  repeat split; reflexivity.
Qed.

Lemma build_kg_object_spec_witness :
  let person := [("@id", JStr "https://kg/person/1"); ("@type", JStr "nsg:Person")] in
  let other := [("@id", JStr "https://kg/person/2"); ("@type", JStr "nsg:Person")] in
  dict_has person "@list" = false
  ∧ dict_get person "@id" = Some (JStr "https://kg/person/1")
  ∧ dict_get other "@id" = Some (JStr "https://kg/person/2")
  ∧ build_kg_object (TKGObject Store.Person) (JDict person)
    = Ok (VProxy {| proxy_cls := Store.Person; proxy_id := JStr "https://kg/person/1" |})
  ∧ build_kg_object (TKGObject Store.Person) (JList [JDict person; JDict other])
    = Ok (VList [VProxy {| proxy_cls := Store.Person; proxy_id := JStr "https://kg/person/1" |};
                 VProxy {| proxy_cls := Store.Person; proxy_id := JStr "https://kg/person/2" |}])
  ∧ build_kg_object (TKGObject Store.Person) (JDict [("@list", JList [JDict person])])
    = build_kg_object (TKGObject Store.Person) (JDict person)
  ∧ build_kg_object TOther (JList [JDict person]) = Raise ValueError.
Proof.
  intros person other.
  split; [reflexivity |]. split; [reflexivity |]. split; [reflexivity |].
  destruct (build_kg_object_spec (TKGObject Store.Person) Store.Person
              person person other
              (JStr "https://kg/person/1") (JStr "https://kg/person/1")
              (JStr "https://kg/person/2") (JDict person) [] true 0%Z EmptyString
              eq_refl eq_refl eq_refl eq_refl)
    as (_ & Hone & Htwo & Hwrap & Hother & _).
  split; [exact Hone |]. split; [exact Htwo |]. split; [exact Hwrap |]. exact Hother.
Defined.

(** C7 as the specification words it fails on an empty input: the class
    is only inspected inside the loop over the entries, so with no entry
    (an empty list, bare or under ["@list"]) or with [None] the call
    returns although the class is neither kind. *)
Lemma build_kg_object_no_entry_counterexample :
  build_kg_object TOther (JList []) = Ok (VList [])
  ∧ build_kg_object TOther (JDict [("@list", JList [])]) = Ok (VList [])
  ∧ build_kg_object TOther JNull = Ok VNone.
Proof. repeat split; reflexivity. Qed.

(** ** KGObject.__init__ *)

Lemma set_properties_unknown (names : list string) (properties : list (string * value))
    (attrs : gmap string value) (k : string) (v : value) :
  (k, v) ∈ properties ->
  k ∉ names ->
  set_properties (Some names) properties attrs = Raise TypeError.
Proof.
  intros Hin Hk. revert attrs.
  induction properties as [|[k' v'] rest IH]; intros attrs.
  - now apply not_elem_of_nil in Hin.
  - simpl. destruct (bool_decide (k' ∈ names)) eqn:E.
    + apply bool_decide_eq_true in E.
      apply elem_of_cons in Hin as [Heq | Hin].
      * inversion Heq; subst. contradiction.
      * now apply IH.
    + reflexivity.
Qed.

(** C9: when the class declares [property_names] and one of the keyword
    arguments is not among them, [KGObject.__init__] raises [TypeError]
    (the ArgumentError kind), the constructor call hands no object to the
    caller, and heap, identity cache and store are what they were. *)
Theorem KGObject_new_unknown_property {T : Type} (cls : KGClass) (names : list string)
    (id : json) (instance : option Instance) (properties : list (string * value))
    (k : string) (v : value) (w : world T) :
  property_names cls = Some names ->
  (k, v) ∈ properties ->
  k ∉ names ->
  KGObject_init cls id instance properties = Raise TypeError
  ∧ KGObject_new cls id instance properties w = (w, Raise TypeError).
Proof.
  intros Hn Hin Hk.
  assert (KGObject_init cls id instance properties = Raise TypeError) as Hinit.
  { unfold KGObject_init. rewrite Hn.
    now rewrite (set_properties_unknown names properties ∅ k v Hin Hk). }
  split; [exact Hinit |].
  unfold KGObject_new, lift, mbind, M_bind. now rewrite Hinit.
Qed.

Lemma KGObject_new_unknown_property_witness :
  let properties := [("name", VStr "Ada Lovelace"); ("orcid", VStr "0000-0001")] in
  property_names Store.Person = Some ["name"; "email"]
  ∧ ("orcid", VStr "0000-0001") ∈ properties
  ∧ ("orcid" ∉ ["name"; "email"])
  ∧ KGObject_new Store.Person JNull None properties (Store.init [])
    = (Store.init [], Raise TypeError).
Proof.
  intros properties.
  assert (("orcid", VStr "0000-0001") ∈ properties) as Hin
    by (apply elem_of_cons; right; apply elem_of_cons; now left).
  assert ("orcid" ∉ ["name"; "email"]) as Hk
    by (intros H; repeat (apply elem_of_cons in H as [H | H]; [discriminate |]);
        now apply not_elem_of_nil in H).
  split; [reflexivity |]. split; [exact Hin |]. split; [exact Hk |].
  exact (proj2 (KGObject_new_unknown_property Store.Person ["name"; "email"] JNull None
                  properties "orcid" (VStr "0000-0001") (Store.init []) eq_refl Hin Hk)).
Defined.

(** ** The exists/save protocol *)

Section Protocol.
Context {T : Type}.
Variable client : Client T.

Lemma alter_lookup_insert {A} (f : A -> A) (l : list A) (n : nat) (x : A) :
  l !! n = Some x -> alter f n l = <[n := f x]> l.
Proof.
  revert n. induction l as [|y l IH]; intros [|n] H; simpl in *; try discriminate.
  - now inversion H.
  - f_equal. now apply IH.
Qed.

Lemma KGObject_exists_known (self : loc) (w : world T) (o : KGObj) :
  heap w !! self = Some o ->
  truthy (obj_id o) = true ->
  KGObject_exists client self w = (w, Ok true).
Proof.
  intros Ho Ht. unfold KGObject_exists, get_obj, mbind, M_bind.
  now rewrite Ho, Ht.
Qed.

Lemma KGObject_exists_none (self : loc) (w : world T) (o : KGObj) (name : value) (t' : T) :
  heap w !! self = Some o ->
  truthy (obj_id o) = false ->
  get_name o = Ok name ->
  filter_query client (cls_path (obj_cls o)) (name_filter name) name_context (remote w)
    = (t', Ok []) ->
  KGObject_exists client self w = (queried w o name t', Ok false).
Proof.
  intros Ho Ht Hn Hq. unfold KGObject_exists, get_obj, lift, invoke, mbind, M_bind.
  now rewrite Ho, Ht, Hn, Hq.
Qed.

Lemma KGObject_exists_found (self : loc) (w : world T) (o : KGObj) (name : value) (t' : T)
    (first : Instance) (rest : list Instance) (i : json) :
  heap w !! self = Some o ->
  truthy (obj_id o) = false ->
  get_name o = Ok name ->
  filter_query client (cls_path (obj_cls o)) (name_filter name) name_context (remote w)
    = (t', Ok (first :: rest)) ->
  at_id first = Ok i ->
  KGObject_exists client self w
  = (set_heap (queried w o name t') (<[self := with_id o i]> (heap w)), Ok true).
Proof.
  intros Ho Ht Hn Hq Hi.
  unfold KGObject_exists, get_obj, lift, invoke, update_obj, mbind, M_bind, mret, M_ret.
  rewrite Ho, Ht, Hn, Hq, Hi. simpl.
  now rewrite (alter_lookup_insert _ _ _ _ Ho).
Qed.

(** C3, as the code has it.  With an identifier that is set (true in the
    Python sense) [exists] returns [True] and nothing else happens: no call
    to the client, no change.  Without one it sends one filter query on
    [schema:name]; on an empty answer it returns [False] and the object is
    unchanged; on an answer with at least one match it stores the ["@id"]
    of the first match in the object and returns [True]. *)
Theorem KGObject_exists_spec (self : loc) (w : world T) (o : KGObj) (name : value)
    (t' : T) (response : list Instance) :
  heap w !! self = Some o ->
  (truthy (obj_id o) = true -> KGObject_exists client self w = (w, Ok true))
  ∧ (truthy (obj_id o) = false ->
     get_name o = Ok name ->
     filter_query client (cls_path (obj_cls o)) (name_filter name) name_context (remote w)
       = (t', Ok response) ->
     match response with
     | [] => KGObject_exists client self w = (queried w o name t', Ok false)
     | first :: _ =>
         forall i, at_id first = Ok i ->
           KGObject_exists client self w
           = (set_heap (queried w o name t') (<[self := with_id o i]> (heap w)), Ok true)
     end).
Proof.
  intros Ho. split.
  - now apply KGObject_exists_known.
  - intros Ht Hn Hq. destruct response as [|first rest].
    + now apply KGObject_exists_none.
    + intros i Hi. now apply (KGObject_exists_found self w o name t' first rest i).
Qed.

Lemma KGObject_save_update (self : loc) (w : world T) (o : KGObj) (doc : json)
    (exists_ok : bool) (t' : T) (inst' : Instance) :
  heap w !! self = Some o ->
  truthy (obj_id o) = true ->
  update_instance client (obj_instance o) (remote w) = (t', Ok inst') ->
  KGObject_save client self doc exists_ok w
  = (set_heap (answered w (UpdateInstance (obj_instance o)) t')
       (<[self := with_instance o inst']> (heap w)), Ok tt).
Proof.
  intros Ho Ht Hu.
  unfold KGObject_save, get_obj, invoke, update_obj, mbind, M_bind.
  rewrite Ho, Ht, Hu. simpl.
  now rewrite (alter_lookup_insert _ _ _ _ Ho).
Qed.

Lemma KGObject_save_found (self : loc) (w : world T) (o : KGObj) (name : value) (t' : T)
    (first : Instance) (rest : list Instance) (i : json) (doc : json) (exists_ok : bool) :
  heap w !! self = Some o ->
  truthy (obj_id o) = false ->
  get_name o = Ok name ->
  filter_query client (cls_path (obj_cls o)) (name_filter name) name_context (remote w)
    = (t', Ok (first :: rest)) ->
  at_id first = Ok i ->
  KGObject_save client self doc exists_ok w
  = (set_heap (queried w o name t') (<[self := with_id o i]> (heap w)),
     if exists_ok then Ok tt else Raise ResourceExistsError).
Proof.
  intros Ho Ht Hn Hq Hi.
  unfold KGObject_save, mbind, M_bind.
  unfold get_obj at 1. rewrite Ho, Ht.
  rewrite (KGObject_exists_found self w o name t' first rest i Ho Ht Hn Hq Hi).
  now destruct exists_ok.
Qed.

Lemma KGObject_save_create (self : loc) (w : world T) (o : KGObj) (name : value)
    (t1 t2 : T) (inst : Instance) (i : json) (k : key) (doc : json) (exists_ok : bool) :
  heap w !! self = Some o ->
  truthy (obj_id o) = false ->
  get_name o = Ok name ->
  filter_query client (cls_path (obj_cls o)) (name_filter name) name_context (remote w)
    = (t1, Ok []) ->
  create_new_instance client (cls_path (obj_cls o)) doc t1 = (t2, Ok inst) ->
  at_id inst = Ok i ->
  hash_key i = Ok k ->
  KGObject_save client self doc exists_ok w
  = ({| heap := <[self := with_instance (with_id o i) inst]> (heap w);
        kg_cache := <[k := self]> (kg_cache w);
        remote := t2;
        calls := calls w ++ [FilterQuery (cls_path (obj_cls o)) (name_filter name) name_context;
                             CreateNewInstance (cls_path (obj_cls o)) doc] |}, Ok tt).
Proof.
  intros Ho Ht Hn Hq Hc Hi Hk.
  unfold KGObject_save, mbind, M_bind.
  unfold get_obj at 1. rewrite Ho, Ht.
  rewrite (KGObject_exists_none self w o name t1 Ho Ht Hn Hq).
  unfold invoke, lift, update_obj, cache_setitem, cache_put, mbind, M_bind, queried.
  simpl. rewrite Hc, Hi. simpl. rewrite Hk. simpl.
  rewrite (alter_lookup_insert _ _ _ _ Ho).
  assert (self < length (heap w)) as Hlt by (eapply lookup_lt_Some; eauto).
  rewrite (alter_lookup_insert _ _ self (with_id o i))
    by (now apply list_lookup_insert_eq).
  rewrite list_insert_insert_eq, <- app_assoc. reflexivity.
Qed.

(** A create or an update that the client fails: the exception passes
    through and the object is what it was. *)
Lemma KGObject_save_update_fails (self : loc) (w : world T) (o : KGObj) (doc : json)
    (exists_ok : bool) (t' : T) (e : exn) :
  heap w !! self = Some o ->
  truthy (obj_id o) = true ->
  update_instance client (obj_instance o) (remote w) = (t', Raise e) ->
  KGObject_save client self doc exists_ok w
  = (answered w (UpdateInstance (obj_instance o)) t', Raise e).
Proof.
  intros Ho Ht Hu.
  unfold KGObject_save, get_obj, invoke, mbind, M_bind.
  now rewrite Ho, Ht, Hu.
Qed.

Lemma KGObject_save_create_fails (self : loc) (w : world T) (o : KGObj) (name : value)
    (t1 t2 : T) (doc : json) (exists_ok : bool) (e : exn) :
  heap w !! self = Some o ->
  truthy (obj_id o) = false ->
  get_name o = Ok name ->
  filter_query client (cls_path (obj_cls o)) (name_filter name) name_context (remote w)
    = (t1, Ok []) ->
  create_new_instance client (cls_path (obj_cls o)) doc t1 = (t2, Raise e) ->
  KGObject_save client self doc exists_ok w
  = (answered (queried w o name t1) (CreateNewInstance (cls_path (obj_cls o)) doc) t2,
     Raise e).
Proof.
  intros Ho Ht Hn Hq Hc.
  unfold KGObject_save, mbind, M_bind.
  unfold get_obj at 1. rewrite Ho, Ht.
  rewrite (KGObject_exists_none self w o name t1 Ho Ht Hn Hq).
  unfold invoke, queried. simpl. now rewrite Hc.
Qed.

(** C4, as the code has it.  An object without identifier whose name the
    store already knows: [save] with [exists_ok=False] raises
    [ResourceExistsError]; the client has received the name query and no
    other call, so no create; and the object now carries the ["@id"] of
    the first match, which [exists] stored in it before the raise. *)
Theorem KGObject_save_exists_not_ok (self : loc) (w : world T) (o : KGObj) (name : value)
    (t' : T) (first : Instance) (rest : list Instance) (i : json) (doc : json) :
  heap w !! self = Some o ->
  truthy (obj_id o) = false ->
  get_name o = Ok name ->
  filter_query client (cls_path (obj_cls o)) (name_filter name) name_context (remote w)
    = (t', Ok (first :: rest)) ->
  at_id first = Ok i ->
  ∃ w', KGObject_save client self doc false w = (w', Raise ResourceExistsError)
        ∧ calls w' = calls w ++ [FilterQuery (cls_path (obj_cls o)) (name_filter name) name_context]
        ∧ creates w' = creates w
        ∧ heap w' !! self = Some (with_id o i)
        ∧ kg_cache w' = kg_cache w.
Proof.
  intros Ho Ht Hn Hq Hi.
  eexists. split.
  { exact (KGObject_save_found self w o name t' first rest i doc false Ho Ht Hn Hq Hi). }
  split; [reflexivity |].
  split.
  { unfold creates; simpl. rewrite List.filter_app; simpl. now rewrite app_nil_r. }
  split; [| reflexivity].
  simpl. apply list_lookup_insert_eq. eapply lookup_lt_Some; eauto.
Qed.

(** C1, as the code has it.  An object without identifier whose name the
    store does not know, saved twice with [exists_ok=True]: the first
    [save] sends the name query and one create, stores the new ["@id"] and
    the instance in the object and enters it in the identity cache; the
    second [save] finds the identifier set and sends one update, whose
    answer replaces the instance; the identifier and the cache stay as the
    first [save] left them.  Over both calls the client receives exactly
    one create. *)
Theorem KGObject_save_twice (self : loc) (w : world T) (o : KGObj) (name : value)
    (t1 t2 t3 : T) (inst inst' : Instance) (i : json) (k : key) (doc1 doc2 : json) :
  heap w !! self = Some o ->
  truthy (obj_id o) = false ->
  get_name o = Ok name ->
  filter_query client (cls_path (obj_cls o)) (name_filter name) name_context (remote w)
    = (t1, Ok []) ->
  create_new_instance client (cls_path (obj_cls o)) doc1 t1 = (t2, Ok inst) ->
  at_id inst = Ok i ->
  hash_key i = Ok k ->
  truthy i = true ->
  update_instance client (Some inst) t2 = (t3, Ok inst') ->
  let query := FilterQuery (cls_path (obj_cls o)) (name_filter name) name_context in
  let create := CreateNewInstance (cls_path (obj_cls o)) doc1 in
  let w1 := {| heap := <[self := with_instance (with_id o i) inst]> (heap w);
               kg_cache := <[k := self]> (kg_cache w);
               remote := t2;
               calls := calls w ++ [query; create] |} in
  let w2 := {| heap := <[self := with_instance (with_id o i) inst']> (heap w);
               kg_cache := <[k := self]> (kg_cache w);
               remote := t3;
               calls := calls w ++ [query; create; UpdateInstance (Some inst)] |} in
  KGObject_save client self doc1 true w = (w1, Ok tt)
  ∧ KGObject_save client self doc2 true w1 = (w2, Ok tt)
  ∧ creates w2 = S (creates w).
Proof.
  intros Ho Ht Hn Hq Hc Hi Hk Hti Hu query create w1 w2.
  assert (self < length (heap w)) as Hlt by (eapply lookup_lt_Some; eauto).
  split.
  { exact (KGObject_save_create self w o name t1 t2 inst i k doc1 true Ho Ht Hn Hq Hc Hi Hk). }
  split.
  { assert (heap w1 !! self = Some (with_instance (with_id o i) inst)) as Ho1
      by (now apply list_lookup_insert_eq).
    rewrite (KGObject_save_update self w1 _ doc2 true t3 inst' Ho1 Hti Hu).
    unfold set_heap, answered, w1, w2; simpl.
    rewrite list_insert_insert_eq, <- app_assoc. reflexivity. }
  unfold creates, w2; simpl. rewrite List.filter_app; simpl.
  rewrite length_app; simpl. lia.
Qed.
End Protocol.

(** *** The protocol on the store in memory *)

Lemma KGObject_exists_spec_witness :
  let saved := with_id Store.ada (JStr "kg:person/1") in
  let known := {| heap := [saved]; kg_cache := ∅; remote := []; calls := [] |} in
  let st := [Store.doc "kg:person/1" "Ada Lovelace"] in
  KGObject_exists Store.client 0 known = (known, Ok true)
  ∧ KGObject_exists Store.client 0 (Store.with_ada [])
    = ({| heap := [Store.ada]; kg_cache := ∅; remote := []; calls := [Store.ada_query] |},
       Ok false)
  ∧ KGObject_exists Store.client 0 (Store.with_ada st)
    = ({| heap := [saved]; kg_cache := ∅; remote := st; calls := [Store.ada_query] |},
       Ok true).
Proof.
  intros saved known st. split; [| split].
  - exact (proj1 (KGObject_exists_spec Store.client 0 known saved VNone [] [] eq_refl)
             eq_refl).
  - exact (proj2 (KGObject_exists_spec Store.client 0 (Store.with_ada []) Store.ada
                    (VStr "Ada Lovelace") [] [] eq_refl)
             eq_refl eq_refl eq_refl).
  - exact (proj2 (KGObject_exists_spec Store.client 0 (Store.with_ada st) Store.ada
                    (VStr "Ada Lovelace") st st eq_refl)
             eq_refl eq_refl eq_refl (JStr "kg:person/1") eq_refl).
Defined.

(** C3 as the specification words it fails when the name matches twice:
    the answer is not empty, so [exists] returns [True] and the object takes
    the identifier of the first match. *)
Lemma KGObject_exists_two_matches_counterexample :
  let st := [Store.doc "kg:person/1" "Ada Lovelace"; Store.doc "kg:person/2" "Ada Lovelace"] in
  filter_query Store.client "neuralactivity/core/person/v0.1.0"
    (name_filter (VStr "Ada Lovelace")) name_context st = (st, Ok st)
  ∧ KGObject_exists Store.client 0 (Store.with_ada st)
    = ({| heap := [with_id Store.ada (JStr "kg:person/1")]; kg_cache := ∅;
          remote := st; calls := [Store.ada_query] |}, Ok true).
Proof. split; vm_compute; reflexivity. Qed.

Lemma KGObject_save_exists_not_ok_witness :
  let st := [Store.doc "kg:person/1" "Ada Lovelace"] in
  ∃ w', KGObject_save Store.client 0 Store.ada_doc false (Store.with_ada st)
        = (w', Raise ResourceExistsError)
        ∧ calls w' = [Store.ada_query]
        ∧ creates w' = 0
        ∧ heap w' !! 0 = Some (with_id Store.ada (JStr "kg:person/1")).
Proof.
  intros st.
  destruct (KGObject_save_exists_not_ok Store.client 0 (Store.with_ada st) Store.ada
              (VStr "Ada Lovelace") st (Store.doc "kg:person/1" "Ada Lovelace") []
              (JStr "kg:person/1") Store.ada_doc eq_refl eq_refl eq_refl eq_refl eq_refl)
    as (w' & Hs & Hc & Hn & Hh & _).
  exists w'. repeat split; assumption.
Defined.

(** C4 as the specification words it fails on its last part: after the
    raise the identifier of the object is no longer what it was ([None])
    but the identifier of the stored match. *)
Lemma KGObject_save_exists_not_ok_counterexample :
  let st := [Store.doc "kg:person/1" "Ada Lovelace"] in
  let w := Store.with_ada st in
  let w' := fst (KGObject_save Store.client 0 Store.ada_doc false w) in
  snd (KGObject_save Store.client 0 Store.ada_doc false w) = Raise ResourceExistsError
  ∧ obj_id <$> heap w !! 0 = Some JNull
  ∧ obj_id <$> heap w' !! 0 = Some (JStr "kg:person/1").
Proof. repeat split; vm_compute; reflexivity. Qed.

Lemma KGObject_save_twice_witness :
  let id := JStr "neuralactivity/core/person/v0.1.0/0" in
  let stored := {| data := [("@id", id); ("@type", JStr "nsg:Person");
                            ("name", JStr "Ada Lovelace")] |} in
  let create := CreateNewInstance "neuralactivity/core/person/v0.1.0" Store.ada_doc in
  let saved := with_instance (with_id Store.ada id) stored in
  let w1 := {| heap := [saved];
               kg_cache := {[KStr "neuralactivity/core/person/v0.1.0/0" := 0]};
               remote := [stored]; calls := [Store.ada_query; create] |} in
  let w2 := {| heap := [saved];
               kg_cache := {[KStr "neuralactivity/core/person/v0.1.0/0" := 0]};
               remote := [stored];
               calls := [Store.ada_query; create; UpdateInstance (Some stored)] |} in
  KGObject_save Store.client 0 Store.ada_doc true (Store.with_ada []) = (w1, Ok tt)
  ∧ KGObject_save Store.client 0 Store.ada_doc true w1 = (w2, Ok tt)
  ∧ creates w2 = 1.
Proof.
  intros id stored create saved w1 w2.
  exact (KGObject_save_twice Store.client 0 (Store.with_ada []) Store.ada
           (VStr "Ada Lovelace") [] [stored] [stored] stored stored id
           (KStr "neuralactivity/core/person/v0.1.0/0") Store.ada_doc Store.ada_doc
           eq_refl eq_refl eq_refl eq_refl eq_refl eq_refl eq_refl eq_refl eq_refl).
Defined.

(** C1 as the specification words it fails on the second call: the
    identifier is set by then, so [save] takes the update branch and the
    client receives an [update_instance] call.  And where the store already
    knows the name, the first [save] adopts the stored identifier and no
    create is sent at all. *)
Lemma KGObject_save_twice_counterexample :
  let w1 := fst (KGObject_save Store.client 0 Store.ada_doc true (Store.with_ada [])) in
  let w2 := fst (KGObject_save Store.client 0 Store.ada_doc true w1) in
  let st := [Store.doc "kg:person/1" "Ada Lovelace"] in
  let v1 := fst (KGObject_save Store.client 0 Store.ada_doc true (Store.with_ada st)) in
  let v2 := fst (KGObject_save Store.client 0 Store.ada_doc true v1) in
  (∃ stored, calls w2 = calls w1 ++ [UpdateInstance (Some stored)])
  ∧ w2 ≠ w1
  ∧ creates v2 = 0.
Proof.
  split; [| split].
  - eexists. vm_compute. reflexivity.
  - intros H. apply (f_equal (fun w => length (calls w))) in H.
    vm_compute in H. discriminate.
  - vm_compute. reflexivity.
Qed.

(** ** The caching factory *)

Section Resolution.
Context {T : Type}.
Variable client : Client T.
Variable fields_of : KGClass -> option (dict -> result (gmap string value)).

(** C5: the wrapper reads the ["@id"] of the document and looks it up in
    [KGObject.cache].  On a hit it returns the cached object and nothing
    else happens, whatever the wrapped function is: the function is not
    called.  On a miss it calls the wrapped function, enters the object it
    returns in the cache under that object's [id], and returns it; an
    exception of the wrapped function passes through. *)
Theorem cache_spec (f : KGClass -> Instance -> M loc) (cls : KGClass) (instance : Instance)
    (i : json) (k k' : key) (wh wm wm' : world T) (hit new : loc) (o : KGObj) :
  at_id instance = Ok i ->
  hash_key i = Ok k ->
  kg_cache wh !! k = Some hit ->
  kg_cache wm !! k = None ->
  f cls instance wm = (wm', Ok new) ->
  heap wm' !! new = Some o ->
  hash_key (obj_id o) = Ok k' ->
  (forall g : KGClass -> Instance -> M loc, cache g cls instance wh = (wh, Ok hit))
  ∧ cache f cls instance wm = (set_cache wm' (<[k' := new]> (kg_cache wm')), Ok new)
  ∧ (forall (g : KGClass -> Instance -> M loc) (w' : world T) (e : exn),
       g cls instance wm = (w', Raise e) -> cache g cls instance wm = (w', Raise e)).
Proof.
  intros Hi Hk Hhit Hmiss Hf Ho Hk'.
  split; [| split].
  - intros g. unfold cache, cache_find, cache_get, lift, mbind, M_bind, mret, M_ret.
    now rewrite Hi, Hk, Hhit.
  - unfold cache, cache_find, cache_get, cache_setitem, cache_put, get_obj, lift,
      mbind, M_bind, mret, M_ret.
    now rewrite Hi, Hk, Hmiss, Hf, Ho, Hk'.
  - intros g w' e Hg.
    unfold cache, cache_find, cache_get, lift, mbind, M_bind.
    now rewrite Hi, Hk, Hmiss, Hg.
Qed.

Lemma from_kg_instance_run (cls : KGClass) (instance : Instance) (w : world T) :
  from_kg_instance fields_of cls instance w =
    match fields_of cls with
    | None => (w, Raise NotImplementedError)
    | Some read =>
        match at_id instance with
        | Raise e => (w, Raise e)
        | Ok i =>
            match hash_key i with
            | Raise e => (w, Raise e)
            | Ok k =>
                match kg_cache w !! k with
                | Some obj => (w, Ok obj)
                | None =>
                    match read (data instance) with
                    | Raise e => (w, Raise e)
                    | Ok attrs =>
                        (loaded w k (obj_of cls attrs i instance), Ok (length (heap w)))
                    end
                end
            end
        end
    end.
Proof.
  unfold from_kg_instance. destruct (fields_of cls) as [read|]; [| reflexivity].
  unfold cache, cache_find, cache_get, lift, mbind, M_bind, mret, M_ret.
  destruct (at_id instance) as [i|e] eqn:Hi; [| reflexivity].
  destruct (hash_key i) as [k|e] eqn:Hk; [| reflexivity].
  destruct (kg_cache w !! k) as [obj|]; [reflexivity |].
  unfold construct, alloc, lift, mbind, M_bind.
  destruct (read (data instance)) as [attrs|e]; [| reflexivity].
  rewrite Hi. unfold get_obj, cache_setitem, cache_put, lift, mbind, M_bind. simpl.
  rewrite list_lookup_middle by reflexivity. simpl. now rewrite Hk.
Qed.

(** *** The invariant of the identity cache *)

Lemma extends_refl (w : world T) : extends w w.
Proof. split; reflexivity. Qed.

Lemma extends_trans (w1 w2 w3 : world T) :
  extends w1 w2 -> extends w2 w3 -> extends w1 w3.
Proof. intros [H1 H2] [H3 H4]. split; etransitivity; eauto. Qed.

Lemma extends_answered (w : world T) (c : call) (t' : T) : extends w (answered w c t').
Proof. split; reflexivity. Qed.

Lemma cache_ok_answered (w : world T) (c : call) (t' : T) :
  cache_ok w -> cache_ok (answered w c t').
Proof. intros H. exact H. Qed.

Lemma cached_as_weaken (w w' : world T) (instance : Instance) (obj : loc) :
  kg_cache w ⊆ kg_cache w' -> cached_as w instance obj -> cached_as w' instance obj.
Proof.
  intros Hsub (i & k & Hi & Hk & Hc). exists i, k.
  repeat split; auto. eapply lookup_weaken; eauto.
Qed.

Lemma cache_ok_loaded (w : world T) (k : key) (o : KGObj) :
  cache_ok w ->
  kg_cache w !! k = None ->
  hash_key (obj_id o) = Ok k ->
  cache_ok (loaded w k o).
Proof.
  intros Hok Hnone Hk k0 l0. unfold loaded; simpl. intros Hl.
  destruct (decide (k = k0)) as [<- | Hne].
  - rewrite lookup_insert_eq in Hl. inversion Hl; subst.
    exists o, k. split; [now apply list_lookup_middle |].
    split; [exact Hk | apply lookup_insert_eq].
  - rewrite lookup_insert_ne in Hl by exact Hne.
    destruct (Hok k0 l0 Hl) as (o0 & k0' & Hh & Hk0 & Hc).
    exists o0, k0'. split; [now apply lookup_app_l_Some |].
    split; [exact Hk0 |].
    rewrite lookup_insert_ne; [exact Hc |]. intros ->. congruence.
Qed.

Lemma extends_loaded (w : world T) (k : key) (o : KGObj) :
  kg_cache w !! k = None -> extends w (loaded w k o).
Proof.
  intros Hnone. split; simpl.
  - now apply prefix_app_r.
  - now apply insert_subseteq.
Qed.

(** An object that is already cached may be entered under one more key,
    free or already its own. *)
Lemma cache_ok_alias (w : world T) (k k0 : key) (l : loc) :
  cache_ok w ->
  kg_cache w !! k0 = Some l ->
  (kg_cache w !! k = None \/ kg_cache w !! k = Some l) ->
  cache_ok (set_cache w (<[k := l]> (kg_cache w))).
Proof.
  intros Hok Hl [Hnone | Hsome].
  - intros k1 l1. unfold set_cache; simpl. intros H1.
    assert (kg_cache w !! k1 = Some l1 \/ (k1 = k /\ l1 = l)) as [Hold | [-> ->]].
    { destruct (decide (k = k1)) as [<- | Hne].
      - rewrite lookup_insert_eq in H1. inversion H1. now right.
      - rewrite lookup_insert_ne in H1 by exact Hne. now left. }
    + destruct (Hok k1 l1 Hold) as (o1 & k1' & Hh & Hk1 & Hc).
      exists o1, k1'. repeat split; auto.
      rewrite lookup_insert_ne; [exact Hc |]. intros ->. congruence.
    + destruct (Hok k0 l Hl) as (o1 & k1' & Hh & Hk1 & Hc).
      exists o1, k1'. repeat split; auto.
      rewrite lookup_insert_ne; [exact Hc |]. intros ->. congruence.
  - rewrite insert_id by exact Hsome.
    intros k1 l1 H1. exact (Hok k1 l1 H1).
Qed.

(** What one pass through the caching factory does to the world. *)
Lemma from_kg_instance_inv (cls : KGClass) (instance : Instance) (w w' : world T)
    (r : result loc) :
  cache_ok w ->
  from_kg_instance fields_of cls instance w = (w', r) ->
  cache_ok w' ∧ extends w w' ∧ remote w' = remote w ∧ calls w' = calls w
  ∧ (forall obj, r = Ok obj -> cached_as w' instance obj)
  ∧ (forall k, kg_cache w !! k = None -> kg_cache w' !! k = None
               \/ exists obj, r = Ok obj /\ kg_cache w' !! k = Some obj).
Proof.
  intros Hok. rewrite from_kg_instance_run.
  destruct (fields_of cls) as [read|];
    [| intros [= <- <-]; repeat split; auto using extends_refl; discriminate].
  destruct (at_id instance) as [i|e] eqn:Hi;
    [| intros [= <- <-]; repeat split; auto using extends_refl; discriminate].
  destruct (hash_key i) as [k|e] eqn:Hk;
    [| intros [= <- <-]; repeat split; auto using extends_refl; discriminate].
  destruct (kg_cache w !! k) as [obj|] eqn:Hc.
  { intros [= <- <-]. repeat split; auto using extends_refl.
    intros obj' [= <-]. now exists i, k. }
  destruct (read (data instance)) as [attrs|e];
    [| intros [= <- <-]; repeat split; auto using extends_refl; discriminate].
  intros [= <- <-].
  split; [now apply cache_ok_loaded |].
  split; [now apply extends_loaded |].
  split; [reflexivity |]. split; [reflexivity |].
  split.
  - intros obj' [= <-]. exists i, k. repeat split; auto. simpl. apply lookup_insert_eq.
  - intros k0 Hk0. simpl. destruct (decide (k = k0)) as [<- | Hne].
    + right. eexists. split; [reflexivity | apply lookup_insert_eq].
    + left. now rewrite lookup_insert_ne.
Qed.

Lemma from_kg_instance_ok (cls : KGClass) (read : dict -> result (gmap string value))
    (instance : Instance) (w : world T) :
  fields_of cls = Some read ->
  well_formed read instance = true ->
  exists w' obj, from_kg_instance fields_of cls instance w = (w', Ok obj).
Proof.
  intros Hf Hwf. rewrite from_kg_instance_run, Hf.
  unfold well_formed in Hwf.
  destruct (at_id instance) as [i|]; [| discriminate].
  destruct (hash_key i) as [k|]; [| discriminate].
  destruct (read (data instance)) as [attrs|]; [| discriminate].
  destruct (kg_cache w !! k); eauto.
Qed.

Lemma mapM_cons {A B} (f : A -> M B) (x : A) (xs : list A) (w : world T) :
  mapM f (x :: xs) w =
    match f x w with
    | (w1, Ok y) =>
        match mapM f xs w1 with
        | (w2, Ok ys) => (w2, Ok (y :: ys))
        | (w2, Raise e) => (w2, Raise e)
        end
    | (w1, Raise e) => (w1, Raise e)
    end.
Proof.
  simpl. unfold mbind, M_bind, mret, M_ret.
  destruct (f x w) as [w1 [y|e]]; [| reflexivity].
  destruct (mapM f xs w1) as [w2 [ys|e]]; reflexivity.
Qed.

Lemma mapM_from_kg_instance_inv (cls : KGClass) (instances : list Instance)
    (w w' : world T) (r : result (list loc)) :
  cache_ok w ->
  mapM (from_kg_instance fields_of cls) instances w = (w', r) ->
  cache_ok w' ∧ extends w w' ∧ remote w' = remote w ∧ calls w' = calls w
  ∧ (forall objects, r = Ok objects -> Forall2 (cached_as w') instances objects).
Proof.
  revert w w' r. induction instances as [|x xs IH]; intros w w' r Hok.
  - intros [= <- <-]. repeat split; auto using extends_refl.
    intros objects [= <-]. constructor.
  - rewrite mapM_cons.
    destruct (from_kg_instance fields_of cls x w) as [w1 [y|e]] eqn:Hx.
    + destruct (from_kg_instance_inv cls x w w1 (Ok y) Hok Hx)
        as (Hok1 & Hext1 & Hr1 & Hc1 & Hy & _).
      destruct (mapM (from_kg_instance fields_of cls) xs w1) as [w2 [ys|e]] eqn:Hxs.
      * destruct (IH w1 w2 (Ok ys) Hok1 Hxs) as (Hok2 & Hext2 & Hr2 & Hc2 & Hys).
        intros [= <- <-].
        split; [exact Hok2 |]. split; [eapply extends_trans; eauto |].
        split; [congruence |]. split; [congruence |].
        intros objects [= <-]. constructor.
        -- eapply cached_as_weaken; [apply Hext2 | now apply Hy].
        -- now apply Hys.
      * destruct (IH w1 w2 (Raise e) Hok1 Hxs) as (Hok2 & Hext2 & Hr2 & Hc2 & _).
        intros [= <- <-].
        split; [exact Hok2 |]. split; [eapply extends_trans; eauto |].
        split; [congruence |]. split; [congruence |]. discriminate.
    + destruct (from_kg_instance_inv cls x w w1 (Raise e) Hok Hx)
        as (Hok1 & Hext1 & Hr1 & Hc1 & _).
      intros [= <- <-].
      split; [exact Hok1 |]. split; [exact Hext1 |].
      split; [exact Hr1 |]. split; [exact Hc1 |]. discriminate.
Qed.

Lemma mapM_from_kg_instance_ok (cls : KGClass) (read : dict -> result (gmap string value))
    (instances : list Instance) (w : world T) :
  fields_of cls = Some read ->
  forallb (well_formed read) instances = true ->
  exists w' objects, mapM (from_kg_instance fields_of cls) instances w = (w', Ok objects).
Proof.
  intros Hf. revert w. induction instances as [|x xs IH]; intros w Hwf.
  - now exists w, [].
  - simpl in Hwf. apply andb_true_iff in Hwf as [Hx Hxs].
    destruct (from_kg_instance_ok cls read x w Hf Hx) as (w1 & y & Hy).
    destruct (IH w1 Hxs) as (w2 & ys & Hys).
    exists w2, (y :: ys). now rewrite mapM_cons, Hy, Hys.
Qed.

(** Entering in the cache, under their own identifiers, objects that the
    factory has just returned changes nothing. *)
Lemma forM_cache_again (objects : list loc) (w : world T) :
  cache_ok w ->
  Forall (fun obj => exists k, kg_cache w !! k = Some obj) objects ->
  forM (fun obj => o ← get_obj obj; cache_setitem (obj_id o) obj) objects w = (w, Ok tt).
Proof.
  intros Hok. induction 1 as [|obj objs [k Hk] _ IH]; [reflexivity |].
  destruct (Hok k obj Hk) as (o & k' & Hh & Hk' & Hc).
  simpl. unfold get_obj, cache_setitem, cache_put, lift, mbind, M_bind.
  rewrite Hh, Hk'. simpl.
  rewrite insert_id by exact Hc.
  replace {| heap := heap w; kg_cache := kg_cache w; remote := remote w; calls := calls w |}
    with w by now destruct w.
  exact IH.
Qed.

Lemma extends_alias (w : world T) (k : key) (l : loc) :
  (kg_cache w !! k = None \/ kg_cache w !! k = Some l) ->
  extends w (set_cache w (<[k := l]> (kg_cache w))).
Proof.
  intros [Hnone | Hsome]; split; simpl; try reflexivity.
  - now apply insert_subseteq.
  - now rewrite insert_id.
Qed.

Lemma cache_ok_empty (w : world T) : kg_cache w = ∅ -> cache_ok w.
Proof. intros He k l. rewrite He, lookup_empty. discriminate. Qed.

(** ** KGQuery.resolve *)

Lemma KGQuery_resolve_run (q : KGQuery) (w : world T) :
  KGQuery_resolve client fields_of q w =
    match filter_query client (cls_path (query_cls q)) (query_filter q) (query_context q)
            (remote w) with
    | (t', Ok instances) =>
        match mapM (from_kg_instance fields_of (query_cls q)) instances
                (answered w (listing q) t') with
        | (w1, Ok objects) =>
            match forM (fun obj => o ← get_obj obj; cache_setitem (obj_id o) obj) objects w1 with
            | (w2, Ok _) =>
                (w2, Ok match instances, objects with
                        | [_], obj :: _ => VObj obj
                        | _, _ => VList (map VObj objects)
                        end)
            | (w2, Raise e) => (w2, Raise e)
            end
        | (w1, Raise e) => (w1, Raise e)
        end
    | (t', Raise e) => (answered w (listing q) t', Raise e)
    end.
Proof.
  unfold KGQuery_resolve, invoke, mbind, M_bind, mret, M_ret, answered, listing.
  destruct (filter_query client _ _ _ (remote w)) as [t' [instances|e]]; [| reflexivity].
  destruct (mapM _ instances _) as [w1 [objects|e]]; [| reflexivity].
  destruct (forM _ objects w1) as [w2 [[]|e]]; [| reflexivity].
  destruct instances as [|? [|? ?]], objects as [|? ?]; reflexivity.
Qed.

Lemma Forall2_cached (w : world T) (instances : list Instance) (objects : list loc) :
  Forall2 (cached_as w) instances objects ->
  Forall (fun obj => exists k, kg_cache w !! k = Some obj) objects.
Proof.
  induction 1 as [|x y xs ys (i & k & _ & _ & Hc) _ IH]; constructor; eauto.
Qed.

(** A resolution that goes through: the objects are those of the factory,
    the loop that caches them again leaves the world as the factory left
    it. *)
Lemma KGQuery_resolve_ok (q : KGQuery) (read : dict -> result (gmap string value))
    (w : world T) (t' : T) (instances : list Instance) :
  cache_ok w ->
  fields_of (query_cls q) = Some read ->
  filter_query client (cls_path (query_cls q)) (query_filter q) (query_context q) (remote w)
    = (t', Ok instances) ->
  forallb (well_formed read) instances = true ->
  ∃ (w' : world T) (objects : list loc),
    mapM (from_kg_instance fields_of (query_cls q)) instances (answered w (listing q) t')
      = (w', Ok objects)
    ∧ KGQuery_resolve client fields_of q w
      = (w', Ok match objects with
                | [obj] => VObj obj
                | _ => VList (map VObj objects)
                end)
    ∧ Forall2 (cached_as w') instances objects
    ∧ cache_ok w'
    ∧ extends w w'.
Proof.
  intros Hok Hf Hq Hwf.
  destruct (mapM_from_kg_instance_ok (query_cls q) read instances
              (answered w (listing q) t') Hf Hwf) as (w' & objects & Hm).
  destruct (mapM_from_kg_instance_inv (query_cls q) instances _ w' (Ok objects)
              (cache_ok_answered w _ t' Hok) Hm) as (Hok' & Hext & _ & _ & Hall).
  specialize (Hall objects eq_refl).
  exists w', objects.
  split; [exact Hm |].
  split.
  { rewrite KGQuery_resolve_run, Hq, Hm,
      (forM_cache_again objects w' Hok' (Forall2_cached w' instances objects Hall)).
    destruct Hall as [|x y xs ys _ Hrest]; [reflexivity |].
    destruct Hrest; reflexivity. }
  split; [exact Hall |]. split; [exact Hok' |].
  eapply extends_trans; [apply extends_answered | exact Hext].
Qed.

(** C6: [resolve] sends the filtered listing once, passes every instance
    of the answer through the class's caching factory, in order, and every
    object it returns is then in the identity cache, under the identifier
    of its document and under its own; the result is the object itself
    when the answer has exactly one instance and the list of the objects
    otherwise (empty for an empty answer). *)
Theorem KGQuery_resolve_spec (q : KGQuery) (read : dict -> result (gmap string value))
    (w : world T) (t' : T) (instances : list Instance) :
  cache_ok w ->
  fields_of (query_cls q) = Some read ->
  filter_query client (cls_path (query_cls q)) (query_filter q) (query_context q) (remote w)
    = (t', Ok instances) ->
  forallb (well_formed read) instances = true ->
  ∃ (w' : world T) (objects : list loc),
    mapM (from_kg_instance fields_of (query_cls q)) instances (answered w (listing q) t')
      = (w', Ok objects)
    ∧ KGQuery_resolve client fields_of q w
      = (w', Ok match objects with
                | [obj] => VObj obj
                | _ => VList (map VObj objects)
                end)
    ∧ length objects = length instances
    ∧ calls w' = calls w ++ [listing q]
    ∧ remote w' = t'
    ∧ Forall2 (cached_as w') instances objects
    ∧ Forall (cached w') objects.
Proof.
  intros Hok Hf Hq Hwf.
  destruct (KGQuery_resolve_ok q read w t' instances Hok Hf Hq Hwf)
    as (w' & objects & Hm & Hres & Hall & Hok' & _).
  destruct (mapM_from_kg_instance_inv (query_cls q) instances _ w' (Ok objects)
              (cache_ok_answered w _ t' Hok) Hm) as (_ & _ & Hr & Hc & _).
  exists w', objects.
  split; [exact Hm |]. split; [exact Hres |].
  split; [symmetry; eapply Forall2_length; eauto |].
  split; [exact Hc |]. split; [exact Hr |]. split; [exact Hall |].
  apply Forall_forall. intros obj Hobj.
  pose proof (Forall2_cached w' instances objects Hall) as Hin.
  rewrite Forall_forall in Hin. destruct (Hin obj Hobj) as [k Hk].
  exact (Hok' k obj Hk).
Qed.

Lemma KGQuery_resolve_inv (q : KGQuery) (w w' : world T) (r : result value) :
  cache_ok w ->
  KGQuery_resolve client fields_of q w = (w', r) ->
  cache_ok w' ∧ extends w w'.
Proof.
  intros Hok. rewrite KGQuery_resolve_run.
  destruct (filter_query client _ _ _ (remote w)) as [t' [instances|e]].
  - destruct (mapM _ instances _) as [w1 [objects|e]] eqn:Hm.
    + destruct (mapM_from_kg_instance_inv (query_cls q) instances _ w1 (Ok objects)
                  (cache_ok_answered w _ t' Hok) Hm) as (Hok1 & Hext & _ & _ & Hall).
      rewrite (forM_cache_again objects w1 Hok1
                 (Forall2_cached w1 instances objects (Hall objects eq_refl))).
      intros [= <- <-]. split; [exact Hok1 |].
      eapply extends_trans; [apply extends_answered | exact Hext].
    + destruct (mapM_from_kg_instance_inv (query_cls q) instances _ w1 (Raise e)
                  (cache_ok_answered w _ t' Hok) Hm) as (Hok1 & Hext & _).
      intros [= <- <-]. split; [exact Hok1 |].
      eapply extends_trans; [apply extends_answered | exact Hext].
  - intros [= <- <-]. split; [now apply cache_ok_answered | apply extends_answered].
Qed.

(** ** KGProxy.resolve *)

Lemma KGProxy_resolve_hit (p : KGProxy) (k : key) (obj : loc) (w : world T) :
  hash_key (proxy_id p) = Ok k ->
  kg_cache w !! k = Some obj ->
  KGProxy_resolve client fields_of p w = (w, Ok obj).
Proof.
  intros Hk Hc.
  unfold KGProxy_resolve, cache_find, cache_get, lift, mbind, M_bind, mret, M_ret.
  now rewrite Hk, Hc.
Qed.

Lemma KGProxy_resolve_inv (p : KGProxy) (w w' : world T) (r : result loc) :
  cache_ok w ->
  KGProxy_resolve client fields_of p w = (w', r) ->
  cache_ok w' ∧ extends w w'.
Proof.
  intros Hok.
  unfold KGProxy_resolve, cache_find, cache_get, cache_setitem, cache_put, from_uri,
    invoke, lift, mbind, M_bind, mret, M_ret.
  destruct (hash_key (proxy_id p)) as [k|e] eqn:Hk;
    [| intros [= <- <-]; split; [exact Hok | apply extends_refl]].
  destruct (kg_cache w !! k) as [obj|] eqn:Hc;
    [intros [= <- <-]; split; [exact Hok | apply extends_refl] |].
  destruct (instance_from_full_uri client (proxy_id p) (remote w)) as [t' [instance|e]];
    [| intros [= <- <-]; split; [exact Hok | split; reflexivity]].
  match goal with
  | |- context [from_kg_instance fields_of ?c ?i ?w0] =>
      destruct (from_kg_instance fields_of c i w0) as [w1 [obj|e]] eqn:Hf;
      destruct (from_kg_instance_inv c i w0 w1 _ Hok Hf) as (Hok1 & Hext & _ & _ & Hobj & Hnew)
  end.
  - intros [= <- <-].
    destruct (Hobj obj eq_refl) as (i & k0 & _ & _ & Hk0).
    assert (kg_cache w1 !! k = None \/ kg_cache w1 !! k = Some obj) as Hfree.
    { destruct (Hnew k Hc) as [Hn | (obj' & [= <-] & Hs)]; auto. }
    split.
    + exact (cache_ok_alias w1 k k0 obj Hok1 Hk0 Hfree).
    + eapply extends_trans; [exact Hext |]. exact (extends_alias w1 k obj Hfree).
  - intros [= <- <-]. split; [exact Hok1 | exact Hext].
Qed.

(** A create keeps the invariant when the store hands out an identifier
    that is not cached yet, for an object that is not cached yet. *)
Lemma KGObject_save_create_cache_ok (self : loc) (w : world T) (o : KGObj) (name : value)
    (t1 t2 : T) (inst : Instance) (i : json) (k : key) (doc : json) (exists_ok : bool) :
  heap w !! self = Some o ->
  truthy (obj_id o) = false ->
  get_name o = Ok name ->
  filter_query client (cls_path (obj_cls o)) (name_filter name) name_context (remote w)
    = (t1, Ok []) ->
  create_new_instance client (cls_path (obj_cls o)) doc t1 = (t2, Ok inst) ->
  at_id inst = Ok i ->
  hash_key i = Ok k ->
  cache_ok w ->
  kg_cache w !! k = None ->
  (forall k0, kg_cache w !! k0 ≠ Some self) ->
  cache_ok (fst (KGObject_save client self doc exists_ok w)).
Proof.
  intros Ho Ht Hn Hq Hc Hi Hk Hok Hnone Hself.
  rewrite (KGObject_save_create client self w o name t1 t2 inst i k doc exists_ok
             Ho Ht Hn Hq Hc Hi Hk).
  simpl. intros k0 l0. simpl. intros Hl.
  assert (self < length (heap w)) as Hlt by (eapply lookup_lt_Some; eauto).
  destruct (decide (k = k0)) as [<- | Hne].
  - rewrite lookup_insert_eq in Hl. inversion Hl; subst.
    exists (with_instance (with_id o i) inst), k.
    split; [now apply list_lookup_insert_eq |].
    split; [exact Hk | apply lookup_insert_eq].
  - rewrite lookup_insert_ne in Hl by exact Hne.
    destruct (Hok k0 l0 Hl) as (o0 & k0' & Hh & Hk0 & Hc0).
    exists o0, k0'.
    split.
    { rewrite list_lookup_insert_ne; [exact Hh |]. intros <-. now apply (Hself k0). }
    split; [exact Hk0 |].
    rewrite lookup_insert_ne; [exact Hc0 |]. intros ->. congruence.
Qed.

(** *** Runs of resolutions *)

Lemma resolve_inv (r : resolution) (w : world T) :
  cache_ok w ->
  cache_ok (fst (resolve client fields_of r w)) ∧ extends w (fst (resolve client fields_of r w)).
Proof.
  intros Hok. destruct r as [cls instance | p | q]; simpl.
  - unfold mbind, M_bind, mret, M_ret.
    destruct (from_kg_instance fields_of cls instance w) as [w' [obj|e]] eqn:Hf;
      destruct (from_kg_instance_inv cls instance w w' _ Hok Hf) as (Hok' & Hext & _);
      now split.
  - unfold mbind, M_bind, mret, M_ret.
    destruct (KGProxy_resolve client fields_of p w) as [w' [obj|e]] eqn:Hp;
      destruct (KGProxy_resolve_inv p w w' _ Hok Hp) as (Hok' & Hext);
      now split.
  - destruct (KGQuery_resolve client fields_of q w) as [w' r] eqn:Hq.
    exact (KGQuery_resolve_inv q w w' r Hok Hq).
Qed.

Lemma run_inv (rs : list resolution) (w : world T) :
  cache_ok w ->
  cache_ok (run client fields_of rs w) ∧ extends w (run client fields_of rs w).
Proof.
  revert w. induction rs as [|r rs IH]; intros w Hok; simpl.
  - split; [exact Hok | apply extends_refl].
  - destruct (resolve_inv r w Hok) as [Hok1 Hext1].
    destruct (IH _ Hok1) as [Hok2 Hext2].
    split; [exact Hok2 | eapply extends_trans; eauto].
Qed.

(** *** Resolutions of one identifier *)

Lemma nth_object_list (objects : list loc) (n : nat) :
  nth_object (VList (map VObj objects)) n = objects !! n.
Proof.
  unfold nth_object. revert n.
  induction objects as [|o objects IH]; intros [|n]; simpl; try reflexivity.
  apply IH.
Qed.

(** A [KGProxy.resolve] that returns leaves the object cached under the
    identifier of the proxy. *)
Lemma KGProxy_resolve_cached (p : KGProxy) (k : key) (w w' : world T) (obj : loc) :
  hash_key (proxy_id p) = Ok k ->
  KGProxy_resolve client fields_of p w = (w', Ok obj) ->
  kg_cache w' !! k = Some obj.
Proof.
  intros Hk.
  unfold KGProxy_resolve, cache_find, cache_get, cache_setitem, cache_put, from_uri,
    invoke, lift, mbind, M_bind, mret, M_ret.
  rewrite Hk.
  destruct (kg_cache w !! k) as [hit|] eqn:Hc; [intros [= <- <-]; exact Hc |].
  destruct (instance_from_full_uri client (proxy_id p) (remote w)) as [t' [instance|e]];
    [| discriminate].
  match goal with
  | |- context [from_kg_instance fields_of ?c ?i ?w0] =>
      destruct (from_kg_instance fields_of c i w0) as [w1 [new|e]]
  end; [| discriminate].
  intros [= <- <-]. simpl. apply lookup_insert_eq.
Qed.

(** A [KGProxy.resolve] returns when the client finds a well-formed
    document for the identifier. *)
Lemma KGProxy_resolve_ok (p : KGProxy) (read : dict -> result (gmap string value))
    (k : key) (t' : T) (instance : Instance) (w : world T) :
  hash_key (proxy_id p) = Ok k ->
  fields_of (proxy_cls p) = Some read ->
  instance_from_full_uri client (proxy_id p) (remote w) = (t', Ok instance) ->
  well_formed read instance = true ->
  exists w' obj, KGProxy_resolve client fields_of p w = (w', Ok obj).
Proof.
  intros Hk Hf Hc Hwf.
  unfold KGProxy_resolve, cache_find, cache_get, cache_setitem, cache_put, from_uri,
    invoke, lift, mbind, M_bind, mret, M_ret.
  rewrite Hk.
  destruct (kg_cache w !! k) as [hit|]; [eauto |].
  rewrite Hc.
  match goal with
  | |- context [from_kg_instance fields_of ?c ?i ?w0] =>
      destruct (from_kg_instance_ok c read i w0 Hf Hwf) as (w1 & new & ->)
  end.
  eauto.
Qed.

(** A resolution of [X] that returns [obj] leaves [X] cached as [obj]. *)
Lemma resolves_caches (X : json) (k : key) (w w' : world T) (obj : loc) :
  cache_ok w ->
  hash_key X = Ok k ->
  resolves client fields_of X w w' obj ->
  cache_ok w' ∧ extends w w' ∧ kg_cache w' !! k = Some obj.
Proof.
  intros Hok Hk Hr.
  destruct Hr as [cls instance w' obj Hi Hf | p w' obj Hp Hres
                 | q t' instances n instance w' v obj Hq Hn Hi Hres Hv].
  - destruct (from_kg_instance_inv cls instance w w' _ Hok Hf)
      as (Hok' & Hext & _ & _ & Hobj & _).
    destruct (Hobj obj eq_refl) as (i & k0 & Hi0 & Hk0 & Hc0).
    split; [exact Hok' |]. split; [exact Hext |]. congruence.
  - destruct (KGProxy_resolve_inv p w w' _ Hok Hres) as [Hok' Hext].
    split; [exact Hok' |]. split; [exact Hext |].
    subst X. exact (KGProxy_resolve_cached p k w w' obj Hk Hres).
  - destruct (KGQuery_resolve_inv q w w' _ Hok Hres) as [Hok' Hext].
    split; [exact Hok' |]. split; [exact Hext |].
    rewrite KGQuery_resolve_run, Hq in Hres.
    destruct (mapM _ instances _) as [w1 [objects|e]] eqn:Hm; [| discriminate].
    destruct (mapM_from_kg_instance_inv (query_cls q) instances _ w1 (Ok objects)
                (cache_ok_answered w _ t' Hok) Hm) as (Hok1 & _ & _ & _ & Hall).
    specialize (Hall objects eq_refl).
    rewrite (forM_cache_again objects w1 Hok1 (Forall2_cached w1 instances objects Hall))
      in Hres.
    injection Hres as Hw Hval. subst w1.
    assert (objects !! n = Some obj) as Ho.
    { subst v. destruct instances as [|x [|y instances]], objects as [|o objects];
        try (rewrite nth_object_list in Hv; exact Hv).
      destruct n as [|n]; [| discriminate]. exact Hv. }
    destruct (Forall2_lookup_l _ _ _ _ _ Hall Hn) as (o & Ho' & (i & k0 & Hi0 & Hk0 & Hc0)).
    congruence.
Qed.

(** Where [X] is cached as [obj], a resolution of [X] returns [obj]. *)
Lemma resolves_cached (X : json) (k : key) (w w' : world T) (obj obj' : loc) :
  cache_ok w ->
  hash_key X = Ok k ->
  kg_cache w !! k = Some obj ->
  resolves client fields_of X w w' obj' ->
  obj' = obj.
Proof.
  intros Hok Hk Hc Hr.
  destruct (resolves_caches X k w w' obj' Hok Hk Hr) as (_ & [_ Hsub] & Hc').
  assert (kg_cache w' !! k = Some obj) by (eapply lookup_weaken; eauto).
  congruence.
Qed.

(** C2: every resolution path gives the same object for identifier [X].
    In a world whose identity cache is consistent, [X] cached or not:
    - each path returns for [X] under the conditions it depends on, a
      class with a factory and a well-formed document: the caching factory
      on a document whose ["@id"] is [X], [KGProxy.resolve] on a proxy for
      [X] once the client has found the document, [KGQuery.resolve] at the
      place of each instance of the answer whose ["@id"] is [X];
    - a resolution of [X] by any of the three paths that returns [obj]
      leaves [X] cached as [obj], in a cache that is consistent again;
    - whatever resolutions run after it, a resolution of [X] by any of the
      three paths then returns this very [obj];
    - once [obj] is in the identity cache for [X], it stays there through
      any run of resolutions, and after the run each of the three paths
      gives this very object for [X], without building another. *)
Theorem resolution_identity (X : json) (k : key) (w : world T) :
  cache_ok w ->
  hash_key X = Ok k ->
  (forall cls read instance,
     fields_of cls = Some read ->
     at_id instance = Ok X ->
     well_formed read instance = true ->
     ∃ (w1 : world T) (obj : loc),
       from_kg_instance fields_of cls instance w = (w1, Ok obj))
  ∧ (forall p read t' instance,
       proxy_id p = X ->
       fields_of (proxy_cls p) = Some read ->
       instance_from_full_uri client X (remote w) = (t', Ok instance) ->
       well_formed read instance = true ->
       ∃ (w1 : world T) (obj : loc),
         KGProxy_resolve client fields_of p w = (w1, Ok obj))
  ∧ (forall q read t' instances n instance,
       fields_of (query_cls q) = Some read ->
       filter_query client (cls_path (query_cls q)) (query_filter q) (query_context q)
         (remote w) = (t', Ok instances) ->
       forallb (well_formed read) instances = true ->
       instances !! n = Some instance ->
       at_id instance = Ok X ->
       ∃ (w1 : world T) (v : value) (obj : loc),
         KGQuery_resolve client fields_of q w = (w1, Ok v)
         ∧ nth_object v n = Some obj)
  ∧ (forall w1 obj,
       resolves client fields_of X w w1 obj ->
       cache_ok w1 ∧ kg_cache w1 !! k = Some obj)
  ∧ (forall w1 obj rs w2 obj2,
       resolves client fields_of X w w1 obj ->
       resolves client fields_of X (run client fields_of rs w1) w2 obj2 ->
       obj2 = obj)
  ∧ (forall obj rs,
       kg_cache w !! k = Some obj ->
       let w' := run client fields_of rs w in
       kg_cache w' !! k = Some obj
       ∧ (forall cls read instance,
            fields_of cls = Some read ->
            at_id instance = Ok X ->
            from_kg_instance fields_of cls instance w' = (w', Ok obj))
       ∧ (forall p,
            proxy_id p = X ->
            KGProxy_resolve client fields_of p w' = (w', Ok obj))
       ∧ (forall q read t' instances n instance,
            fields_of (query_cls q) = Some read ->
            filter_query client (cls_path (query_cls q)) (query_filter q) (query_context q)
              (remote w') = (t', Ok instances) ->
            forallb (well_formed read) instances = true ->
            instances !! n = Some instance ->
            at_id instance = Ok X ->
            ∃ (w'' : world T) (objects : list loc),
              KGQuery_resolve client fields_of q w'
              = (w'', Ok match objects with
                         | [o] => VObj o
                         | _ => VList (map VObj objects)
                         end)
              ∧ length objects = length instances
              ∧ objects !! n = Some obj
              ∧ kg_cache w'' !! k = Some obj)
       ∧ (forall w2 obj2,
            resolves client fields_of X w' w2 obj2 -> obj2 = obj)).
Proof.
  intros Hok Hk.
  split; [| split; [| split; [| split; [| split]]]].
  - intros cls read instance Hf _ Hwf.
    exact (from_kg_instance_ok cls read instance w Hf Hwf).
  - intros p read t' instance Hp Hf Hc Hwf. subst X.
    exact (KGProxy_resolve_ok p read k t' instance w Hk Hf Hc Hwf).
  - intros q read t' instances n instance Hf Hq Hwf Hn _.
    destruct (KGQuery_resolve_ok q read w t' instances Hok Hf Hq Hwf)
      as (w1 & objects & _ & Hres & Hall & _).
    destruct (Forall2_lookup_l _ _ _ _ _ Hall Hn) as (obj & Ho & _).
    eexists w1, _, obj. split; [exact Hres |].
    destruct objects as [|o [|o' objects]].
    + discriminate.
    + destruct n as [|n]; [exact Ho | discriminate].
    + rewrite nth_object_list. exact Ho.
  - intros w1 obj Hr.
    destruct (resolves_caches X k w w1 obj Hok Hk Hr) as (Hok1 & _ & Hc1).
    now split.
  - intros w1 obj rs w2 obj2 Hr1 Hr2.
    destruct (resolves_caches X k w w1 obj Hok Hk Hr1) as (Hok1 & _ & Hc1).
    destruct (run_inv rs w1 Hok1) as [Hok' [_ Hsub]].
    refine (resolves_cached X k _ w2 obj obj2 Hok' Hk _ Hr2).
    eapply lookup_weaken; eauto.
  - intros obj rs Hc w'.
    destruct (run_inv rs w Hok) as [Hok' [_ Hsub]]. fold w' in Hok', Hsub.
    assert (kg_cache w' !! k = Some obj) as Hc' by (eapply lookup_weaken; eauto).
    split; [exact Hc' |].
    split; [| split; [| split]].
    + intros cls read instance Hf Hi.
      now rewrite from_kg_instance_run, Hf, Hi, Hk, Hc'.
    + intros p <-. now apply (KGProxy_resolve_hit p k).
    + intros q read t' instances n instance Hf Hq Hwf Hn Hi.
      destruct (KGQuery_resolve_ok q read w' t' instances Hok' Hf Hq Hwf)
        as (w'' & objects & _ & Hres & Hall & _ & [_ Hsub']).
      assert (kg_cache w'' !! k = Some obj) as Hc'' by (eapply lookup_weaken; eauto).
      exists w'', objects. split; [exact Hres |].
      split; [symmetry; eapply Forall2_length; eauto |].
      split; [| exact Hc''].
      destruct (Forall2_lookup_l _ _ _ _ _ Hall Hn) as (o & Ho & (i & k0 & Hi0 & Hk0 & Hc0)).
      rewrite Ho. f_equal. congruence.
    + intros w2 obj2 Hr. exact (resolves_cached X k w' w2 obj obj2 Hok' Hk Hc' Hr).
Qed.
End Resolution.

(** *** Resolution on the store in memory *)

Example KGQuery_resolve_one :
  snd (KGQuery_resolve Store.client Store.fields_of (Store.by_name "Ada Lovelace")
         (Store.init Store.people)) = Ok (VObj 0).
Proof. vm_compute. reflexivity. Qed.

Example KGQuery_resolve_two :
  snd (KGQuery_resolve Store.client Store.fields_of (Store.by_name "Alan Turing")
         (Store.init Store.people)) = Ok (VList [VObj 0; VObj 1]).
Proof. vm_compute. reflexivity. Qed.

Example KGQuery_resolve_none :
  snd (KGQuery_resolve Store.client Store.fields_of (Store.by_name "Grace Hopper")
         (Store.init Store.people)) = Ok (VList []).
Proof. vm_compute. reflexivity. Qed.

Example KGProxy_resolve_twice :
  let p := Store.proxy "kg:person/2" in
  let w := fst (KGProxy_resolve Store.client Store.fields_of p (Store.init Store.people)) in
  calls w = [InstanceFromFullUri (JStr "kg:person/2")]
  ∧ KGProxy_resolve Store.client Store.fields_of p w = (w, Ok 0).
Proof. split; vm_compute; reflexivity. Qed.

Lemma cache_spec_witness :
  let instance := Store.doc "kg:person/1" "Ada Lovelace" in
  let o := obj_of Store.Person {["name" := VStr "Ada Lovelace"]} (JStr "kg:person/1") instance in
  let wh : world Store.state :=
    {| heap := [o]; kg_cache := {[KStr "kg:person/1" := 0]}; remote := []; calls := [] |} in
  let wm : world Store.state := Store.init [] in
  at_id instance = Ok (JStr "kg:person/1")
  ∧ kg_cache wh !! KStr "kg:person/1" = Some 0
  ∧ kg_cache wm !! KStr "kg:person/1" = None
  ∧ (forall g : KGClass -> Instance -> M loc, cache g Store.Person instance wh = (wh, Ok 0))
  ∧ cache (construct Store.read_name) Store.Person instance wm = (wh, Ok 0).
Proof.
  intros instance o wh wm.
  assert (kg_cache wh !! KStr "kg:person/1" = Some 0) as Hhit by (vm_compute; reflexivity).
  assert (kg_cache wm !! KStr "kg:person/1" = None) as Hmiss by (vm_compute; reflexivity).
  destruct (cache_spec (construct Store.read_name) Store.Person instance
              (JStr "kg:person/1") (KStr "kg:person/1") (KStr "kg:person/1")
              wh wm (set_heap wm [o]) 0 0 o
              eq_refl eq_refl Hhit Hmiss eq_refl eq_refl eq_refl) as (Hh & Hm & _).
  split; [reflexivity |]. split; [exact Hhit |]. split; [exact Hmiss |].
  split; [exact Hh | exact Hm].
Defined.

Lemma KGQuery_resolve_spec_witness :
  let q := Store.by_name "Alan Turing" in
  let w := Store.init Store.people in
  let answer := [Store.doc "kg:person/2" "Alan Turing"; Store.doc "kg:person/3" "Alan Turing"] in
  cache_ok w
  ∧ forallb (well_formed Store.read_name) answer = true
  ∧ ∃ (w' : world Store.state) (objects : list loc),
      KGQuery_resolve Store.client Store.fields_of q w
      = (w', Ok match objects with
                | [obj] => VObj obj
                | _ => VList (map VObj objects)
                end)
      ∧ length objects = 2
      ∧ calls w' = [listing q]
      ∧ Forall (cached w') objects.
Proof.
  intros q w answer.
  assert (cache_ok w) as Hok by (now apply cache_ok_empty).
  split; [exact Hok |]. split; [reflexivity |].
  destruct (KGQuery_resolve_spec Store.client Store.fields_of q Store.read_name w
              Store.people answer Hok eq_refl eq_refl eq_refl)
    as (w' & objects & _ & Hres & Hlen & Hcalls & _ & _ & Hin).
  exists w', objects. repeat split; assumption.
Defined.

Lemma resolution_identity_witness :
  let X := JStr "kg:person/1" in
  let k := KStr "kg:person/1" in
  let ada := Store.doc "kg:person/1" "Ada Lovelace" in
  let w := Store.init Store.people in
  let w1 := fst (from_kg_instance Store.fields_of Store.Person ada w) in
  let w' := run Store.client Store.fields_of
              [ByQuery (Store.by_name "Alan Turing"); ByProxy (Store.proxy "kg:person/2")] w1 in
  cache_ok w
  ∧ kg_cache w !! k = None
  ∧ from_kg_instance Store.fields_of Store.Person ada w = (w1, Ok 0)
  ∧ (∃ (w2 : world Store.state) (obj : loc),
       KGProxy_resolve Store.client Store.fields_of (Store.proxy "kg:person/1") w = (w2, Ok obj))
  ∧ (∃ (w2 : world Store.state) (v : value) (obj : loc),
       KGQuery_resolve Store.client Store.fields_of (Store.by_name "Ada Lovelace") w = (w2, Ok v)
       ∧ nth_object v 0 = Some obj)
  ∧ cache_ok w1
  ∧ kg_cache w1 !! k = Some 0
  ∧ kg_cache w' !! k = Some 0
  ∧ from_kg_instance Store.fields_of Store.Person ada w' = (w', Ok 0)
  ∧ KGProxy_resolve Store.client Store.fields_of (Store.proxy "kg:person/1") w' = (w', Ok 0)
  ∧ (∃ (w'' : world Store.state) (objects : list loc),
       KGQuery_resolve Store.client Store.fields_of (Store.by_name "Ada Lovelace") w'
       = (w'', Ok match objects with
                  | [o] => VObj o
                  | _ => VList (map VObj objects)
                  end)
       ∧ length objects = 1
       ∧ objects !! 0 = Some 0)
  ∧ (forall (w2 : world Store.state) (obj2 : loc),
       resolves Store.client Store.fields_of X w' w2 obj2 -> obj2 = 0).
Proof.
  intros X k ada w w1 w'.
  assert (cache_ok w) as Hok by (now apply cache_ok_empty).
  assert (from_kg_instance Store.fields_of Store.Person ada w = (w1, Ok 0)) as Hfirst
    by (vm_compute; reflexivity).
  assert (filter_query Store.client (cls_path (query_cls (Store.by_name "Ada Lovelace")))
            (query_filter (Store.by_name "Ada Lovelace"))
            (query_context (Store.by_name "Ada Lovelace")) (remote w)
          = (Store.people, Ok [ada])) as Hq by (vm_compute; reflexivity).
  destruct (resolution_identity Store.client Store.fields_of X k w Hok eq_refl)
    as (_ & Hproxy & Hquery & Hcaches & _ & _).
  destruct (Hcaches w1 0 (resolves_factory Store.client Store.fields_of X w
                            Store.Person ada w1 0 eq_refl Hfirst)) as [Hok1 Hc1].
  destruct (resolution_identity Store.client Store.fields_of X k w1 Hok1 eq_refl)
    as (_ & _ & _ & _ & _ & Hcached).
  destruct (Hcached 0
              [ByQuery (Store.by_name "Alan Turing"); ByProxy (Store.proxy "kg:person/2")] Hc1)
    as (Hc' & Hfactory' & Hproxy' & Hquery' & Hsame).
  fold w' in Hc', Hfactory', Hproxy', Hquery', Hsame.
  assert (filter_query Store.client (cls_path (query_cls (Store.by_name "Ada Lovelace")))
            (query_filter (Store.by_name "Ada Lovelace"))
            (query_context (Store.by_name "Ada Lovelace")) (remote w')
          = (Store.people, Ok [ada])) as Hq' by (vm_compute; reflexivity).
  split; [exact Hok |]. split; [vm_compute; reflexivity |]. split; [exact Hfirst |].
  split; [exact (Hproxy (Store.proxy "kg:person/1") Store.read_name Store.people ada
                   eq_refl eq_refl eq_refl eq_refl) |].
  split; [exact (Hquery (Store.by_name "Ada Lovelace") Store.read_name Store.people
                   [ada] 0 ada eq_refl Hq eq_refl eq_refl eq_refl) |].
  split; [exact Hok1 |]. split; [exact Hc1 |]. split; [exact Hc' |].
  split; [exact (Hfactory' Store.Person Store.read_name ada eq_refl eq_refl) |].
  split; [exact (Hproxy' (Store.proxy "kg:person/1") eq_refl) |].
  split; [| exact Hsame].
  destruct (Hquery' (Store.by_name "Ada Lovelace") Store.read_name Store.people
              [ada] 0 ada eq_refl Hq' eq_refl eq_refl eq_refl)
    as (w'' & objects & Hres & Hlen & Hobj & _).
  exists w'', objects. repeat split; assumption.
Defined.

(** * More on the normaliser and the term codec *)

Lemma rmap_Forall2 {A B} (f : A -> result B) (xs : list A) (ys : list B) :
  Forall2 (fun x y => f x = Ok y) xs ys -> rmap f xs = Ok ys.
Proof.
  induction 1 as [|x y xs ys Hx _ IH]; [reflexivity |].
  simpl. now rewrite Hx, IH.
Qed.

Lemma rmap_Ok_Forall2 {A B} (f : A -> result B) (xs : list A) (ys : list B) :
  rmap f xs = Ok ys -> Forall2 (fun x y => f x = Ok y) xs ys.
Proof.
  revert ys. induction xs as [|x xs IH]; intros ys; simpl.
  - intros [= <-]. constructor.
  - destruct (f x) as [y|e] eqn:Hx; [| discriminate].
    destruct (rmap f xs) as [ys'|e]; [| discriminate].
    intros [= <-]. constructor; auto.
Qed.

Lemma rmap_first_raise {A B} (f : A -> result B) (pre : list A) (ys : list B)
    (x : A) (post : list A) (e : exn) :
  Forall2 (fun x y => f x = Ok y) pre ys ->
  f x = Raise e ->
  rmap f (pre ++ x :: post) = Raise e.
Proof.
  intros Hpre Hx. induction Hpre as [|a b pre ys Ha _ IH]; simpl.
  - now rewrite Hx.
  - now rewrite Ha, IH.
Qed.

Lemma build_item_is_item (cls : target) (e : json) (o : value) :
  build_item cls e = Ok o -> is_item o = true.
Proof.
  destruct cls as [c | c |]; simpl; [| | discriminate].
  - unfold from_jsonld. destruct e; try (intros [= <-]; reflexivity);
      unfold mbind, result_bind, rbind;
      repeat match goal with
             | |- context [match ?x with Ok _ => _ | Raise _ => _ end] =>
                 destruct x; try discriminate
             end;
      intros [= <-]; reflexivity.
  - unfold mbind, result_bind, rbind.
    destruct (getitem e "@id"); [| discriminate]. intros [= <-]. reflexivity.
Qed.

Lemma as_list_item (o : value) : is_item o = true -> as_list o = [o].
Proof. destruct o; try discriminate; reflexivity. Qed.

Lemma build_item_entity (c : KGClass) (e i : json) :
  getitem e "@id" = Ok i -> build_item (TKGObject c) e = Ok (proxy_for c i).
Proof.
  intros H. unfold build_item, mbind, result_bind, rbind. now rewrite H.
Qed.

(** X1: for an entity class, a list of any number of entries that carry an
    ["@id"] gives their proxies in order: the proxy itself for one entry,
    the list of the proxies otherwise, the empty list for no entry; the
    same list under ["@list"] gives the same result. *)
Theorem build_kg_object_entries (c : KGClass) (entries ids : list json) :
  Forall2 (fun e i => getitem e "@id" = Ok i) entries ids ->
  build_kg_object (TKGObject c) (JList entries)
  = Ok match ids with
       | [i] => proxy_for c i
       | _ => VList (map (proxy_for c) ids)
       end
  ∧ build_kg_object (TKGObject c) (JDict [("@list", JList entries)])
    = build_kg_object (TKGObject c) (JList entries).
Proof.
  intros H. split.
  - rewrite build_kg_object_list.
    rewrite (rmap_Forall2 (build_item (TKGObject c)) entries (map (proxy_for c) ids)).
    + destruct ids as [|i [|j ids]]; reflexivity.
    + apply Forall2_fmap_r. eapply Forall2_impl; [exact H |].
      intros e i Hi. now apply build_item_entity.
  - now rewrite build_kg_object_wrapped.
Qed.

Lemma build_kg_object_entries_witness :
  let entry := fun id : string => JDict [("@id", JStr id); ("@type", JStr "nsg:Person")] in
  let ids := [JStr "kg:person/1"; JStr "kg:person/2"; JStr "kg:person/3"] in
  build_kg_object (TKGObject Store.Person)
    (JList [entry "kg:person/1"; entry "kg:person/2"; entry "kg:person/3"])
  = Ok (VList (map (proxy_for Store.Person) ids)).
Proof.
  intros entry ids.
  refine (proj1 (build_kg_object_entries Store.Person _ ids _)).
  repeat constructor.
Defined.

(** X2: [as_list] undoes the collapse of [build_kg_object]: whatever the
    class and the number of entries, [as_list] of the result is the list of
    the converted entries, one per entry.  For an absent value ([None])
    the result is [None] and [as_list] of it is the one-element list
    [[None]], not the empty list. *)
Theorem as_list_build_kg_object (cls : target) (items : list json) (objects : list value) :
  Forall2 (fun e o => build_item cls e = Ok o) items objects ->
  (∃ v, build_kg_object cls (JList items) = Ok v ∧ as_list v = objects)
  ∧ (∃ v, build_kg_object cls JNull = Ok v ∧ as_list v = [VNone]).
Proof.
  intros H. split; [| now exists VNone].
  rewrite build_kg_object_list, (rmap_Forall2 _ _ _ H).
  destruct H as [|e o es os Ho Hrest]; [now eexists |].
  destruct Hrest; [| now eexists].
  exists o. split; [reflexivity |].
  apply as_list_item. eapply build_item_is_item; eauto.
Qed.

Lemma as_list_build_kg_object_witness :
  let owner := JDict [("@id", JStr "kg:person/1"); ("@type", JStr "nsg:Person")] in
  ∃ v, build_kg_object (TKGObject Store.Person) (JList [owner]) = Ok v
       ∧ as_list v = [proxy_for Store.Person (JStr "kg:person/1")].
Proof.
  intros owner.
  refine (proj1 (as_list_build_kg_object (TKGObject Store.Person) [owner]
                   [proxy_for Store.Person (JStr "kg:person/1")] _)).
  repeat constructor.
Defined.

Lemma build_kg_object_objects (cls : target) (data : json) (v : value) :
  build_kg_object cls data = Ok v ->
  data = JNull ∧ v = VNone
  ∨ ∃ items objects,
      rmap (build_item cls) items = Ok objects
      ∧ v = match objects with [o] => o | _ => VList objects end.
Proof.
  unfold build_kg_object.
  destruct data as [| b | z | s | l | d]; try discriminate.
  - intros [= <-]. now left.
  - cbn. unfold mbind, result_bind, rbind.
    destruct (rmap (build_item cls) l) as [objects|] eqn:Hr; [| discriminate].
    intros Hv. right. exists l, objects. split; [exact Hr |].
    destruct objects as [|o [|o' os]]; now inversion Hv.
  - unfold mbind, result_bind, rbind.
    destruct (if dict_has d "@list" then _ else _) as [data'|]; [| discriminate].
    destruct (iterate data') as [items|]; [| discriminate].
    destruct (rmap (build_item cls) items) as [objects|] eqn:Hr; [| discriminate].
    intros Hv. right. exists items, objects. split; [exact Hr |].
    destruct objects as [|o [|o' os]]; now inversion Hv.
Qed.

(** X3: what [build_kg_object] returns is [None], a term, an unresolved
    proxy, or a list of such values whose length is not one; it never holds
    an entity object (nothing is resolved) and never a one-element list. *)
Theorem build_kg_object_result (cls : target) (data : json) (v : value) :
  build_kg_object cls data = Ok v ->
  is_item v = true
  ∨ ∃ l, v = VList l ∧ length l ≠ 1 ∧ forallb is_item l = true.
Proof.
  intros H. destruct (build_kg_object_objects cls data v H)
    as [[_ ->] | (items & objects & Hr & ->)]; [now left |].
  assert (forallb is_item objects = true) as Hall.
  { apply forallb_forall. intros o Ho.
    pose proof (rmap_Ok_Forall2 _ _ _ Hr) as HF.
    apply list_elem_of_In in Ho. apply list_elem_of_lookup in Ho as [n Hn].
    destruct (Forall2_lookup_r _ _ _ _ _ HF Hn) as (e & _ & He).
    eapply build_item_is_item; eauto. }
  destruct objects as [|o [|o' os]].
  - right. exists []. repeat split. discriminate.
  - left. simpl in Hall. now apply andb_true_iff in Hall as [Ho _].
  - right. eexists. repeat split; [discriminate | exact Hall].
Qed.

Lemma build_kg_object_result_witness :
  let data := JList [JDict [("@id", JStr "kg:person/1")]; JDict [("@id", JStr "kg:person/2")]] in
  let v := VList [proxy_for Store.Person (JStr "kg:person/1");
                  proxy_for Store.Person (JStr "kg:person/2")] in
  build_kg_object (TKGObject Store.Person) data = Ok v
  ∧ (is_item v = true ∨ ∃ l, v = VList l ∧ length l ≠ 1 ∧ forallb is_item l = true).
Proof.
  intros data v. split; [reflexivity |].
  exact (build_kg_object_result (TKGObject Store.Person) data v eq_refl).
Defined.

(** X4: how [build_kg_object] fails.  A mapping that has the key
    ["@list"] beside other keys fails the assertion; in a list, the first
    entry that cannot be converted decides the exception, whatever comes
    after it; for an entity class a mapping without ["@id"] raises
    [KeyError] and an entry that is a string, a number or [None] raises
    [TypeError]. *)
Theorem build_kg_object_failure (cls : target) (c : KGClass) (d entry : dict)
    (pre post : list json) (objects : list value) (e : json) (err : exn)
    (s : string) (z : Z) :
  (dict_has d "@list" = true -> length d ≠ 1 ->
   build_kg_object cls (JDict d) = Raise AssertionError)
  ∧ (Forall2 (fun x o => build_item cls x = Ok o) pre objects ->
     build_item cls e = Raise err ->
     build_kg_object cls (JList (pre ++ e :: post)) = Raise err)
  ∧ (dict_get entry "@id" = None ->
     build_kg_object (TKGObject c) (JList (JDict entry :: post)) = Raise KeyError)
  ∧ build_kg_object (TKGObject c) (JList (JStr s :: post)) = Raise TypeError
  ∧ build_kg_object (TKGObject c) (JList (JNum z :: post)) = Raise TypeError
  ∧ build_kg_object (TKGObject c) (JList (JNull :: post)) = Raise TypeError.
Proof.
  split; [| split; [| split]].
  - intros Hl Hn. unfold build_kg_object. rewrite Hl.
    destruct (Nat.eqb_spec (length d) 1) as [Heq | _]; [contradiction | reflexivity].
  - intros Hpre He. rewrite build_kg_object_list.
    now rewrite (rmap_first_raise _ pre objects e post err Hpre He).
  - intros Hid. rewrite build_kg_object_list. cbn [rmap].
    unfold build_item, getitem, mbind, result_bind, rbind. now rewrite Hid.
  - repeat split; rewrite build_kg_object_list; reflexivity.
Qed.

Lemma build_kg_object_failure_witness :
  let good := JDict [("@id", JStr "kg:person/1")] in
  let bad := [("@type", JStr "nsg:Person")] in
  build_kg_object (TKGObject Store.Person)
    (JDict [("@list", JList [good]); ("@type", JStr "nsg:Person")]) = Raise AssertionError
  ∧ build_kg_object (TKGObject Store.Person) (JList [good; JDict bad; good]) = Raise KeyError
  ∧ build_kg_object (TKGObject Store.Person) (JList [JDict bad; good]) = Raise KeyError.
Proof.
  intros good bad.
  destruct (build_kg_object_failure (TKGObject Store.Person) Store.Person
              [("@list", JList [good]); ("@type", JStr "nsg:Person")] bad
              [good] [good] [proxy_for Store.Person (JStr "kg:person/1")]
              (JDict bad) KeyError EmptyString 0%Z) as (Ha & Hb & Hc & _).
  split; [apply Ha; [reflexivity | discriminate] |].
  split; [apply Hb; [repeat constructor | reflexivity] |].
  apply Hc. reflexivity.
Defined.

(** X5: the decoder asks more than the constructor.  A mapping without
    [label] raises [KeyError], and so does a mapping without ["@id"], also
    when the label is in the class's table; an ["@id"] that is present but
    false in the Python sense ([None], empty) is replaced by the IRI the
    table gives for the label; a value that is neither [None] nor a
    mapping raises [TypeError]. *)
Theorem from_jsonld_edges (c : TermClass) (d m : dict) (lbl i v : json)
    (s : string) (l : list json) (z : Z) (b : bool) :
  (dict_get d "label" = None -> from_jsonld c (JDict d) = Raise KeyError)
  ∧ (dict_get d "label" = Some lbl -> dict_get d "@id" = None ->
     from_jsonld c (JDict d) = Raise KeyError)
  ∧ (dict_get d "label" = Some (JStr s) -> dict_get d "@id" = Some i ->
     truthy i = false -> iri_map c = Some m -> dict_get m s = Some v ->
     from_jsonld c (JDict d)
     = Ok (VTerm {| term_cls := c; label := JStr s; iri := v |}))
  ∧ from_jsonld c (JStr s) = Raise TypeError
  ∧ from_jsonld c (JList l) = Raise TypeError
  ∧ from_jsonld c (JNum z) = Raise TypeError
  ∧ from_jsonld c (JBool b) = Raise TypeError.
Proof.
  split; [| split; [| split]].
  - intros Hl. unfold from_jsonld, getitem, mbind, result_bind, rbind. now rewrite Hl.
  - intros Hl Hi. unfold from_jsonld, getitem, mbind, result_bind, rbind.
    now rewrite Hl, Hi.
  - intros Hl Hi Ht Hm Hv. rewrite (from_jsonld_dict c d (JStr s) i Hl Hi).
    unfold OntologyTerm_init, iri_map_lookup. rewrite Ht, Hm. simpl. now rewrite Hv.
  - repeat split; reflexivity.
Qed.

Lemma from_jsonld_edges_witness :
  let rat := JStr "http://purl.obolibrary.org/obo/NCBITaxon_10116" in
  from_jsonld Store.Species (JDict [("@id", rat)]) = Raise KeyError
  ∧ from_jsonld Store.Species (JDict [("label", JStr "Rattus norvegicus")]) = Raise KeyError
  ∧ from_jsonld Store.Species (JDict [("label", JStr "Rattus norvegicus"); ("@id", JNull)])
    = Ok (VTerm {| term_cls := Store.Species; label := JStr "Rattus norvegicus"; iri := rat |})
  ∧ OntologyTerm_init Store.Species (JStr "Rattus norvegicus") JNull
    = Ok {| term_cls := Store.Species; label := JStr "Rattus norvegicus"; iri := rat |}.
Proof.
  intros rat.
  split.
  { exact (proj1 (from_jsonld_edges Store.Species [("@id", rat)] [] JNull JNull JNull
                    EmptyString [] 0%Z true) eq_refl). }
  split.
  { exact (proj1 (proj2 (from_jsonld_edges Store.Species
                           [("label", JStr "Rattus norvegicus")] [] (JStr "Rattus norvegicus")
                           JNull JNull EmptyString [] 0%Z true)) eq_refl eq_refl). }
  split; [| reflexivity].
  exact (proj1 (proj2 (proj2 (from_jsonld_edges Store.Species
            [("label", JStr "Rattus norvegicus"); ("@id", JNull)]
            [("Rattus norvegicus", rat);
             ("Mus musculus", JStr "http://purl.obolibrary.org/obo/NCBITaxon_10090")]
            JNull JNull rat "Rattus norvegicus" [] 0%Z true)))
           eq_refl eq_refl eq_refl eq_refl eq_refl).
Defined.

(** * The registry and construction *)

(** X6: the registry keeps one class per name.  A registered class is
    found under its name; a second class registered under the same name
    replaces the first (names are not qualified by a namespace), other
    names are not affected, an unknown name raises [KeyError]; a proxy or
    a query built from the name of a registered class is the one built from
    the class itself. *)
Theorem registry_spec (registry : gmap string KGClass) (c c' : KGClass) (name : string)
    (uri : json) (filter context : value) :
  lookup (register_class c registry) (cls_name c) = Ok c
  ∧ (cls_name c' = cls_name c ->
     lookup (register_class c' (register_class c registry)) (cls_name c) = Ok c')
  ∧ (name ≠ cls_name c -> lookup (register_class c registry) name = lookup registry name)
  ∧ (registry !! name = None ->
     lookup registry name = Raise KeyError
     ∧ KGProxy_init registry (inl name) uri = Raise KeyError
     ∧ KGQuery_init registry (inl name) filter context = Raise KeyError)
  ∧ KGProxy_init (register_class c registry) (inl (cls_name c)) uri
    = KGProxy_init registry (inr c) uri
  ∧ KGQuery_init (register_class c registry) (inl (cls_name c)) filter context
    = KGQuery_init registry (inr c) filter context.
Proof.
  unfold lookup, register_class, KGProxy_init, KGQuery_init, lookup,
    mbind, result_bind, rbind.
  split; [now rewrite lookup_insert_eq |].
  split; [intros ->; now rewrite lookup_insert_eq |].
  split; [intros Hne; now rewrite lookup_insert_ne |].
  split; [intros ->; repeat split |].
  now rewrite !lookup_insert_eq.
Qed.

Lemma registry_spec_witness :
  let other := {| cls_name := "Person"; cls_path := "neuralactivity/uniminds/person/v1.0.0";
                  property_names := None |} in
  let registry := register_class other (register_class Store.Person ∅) in
  lookup registry "Person" = Ok other
  ∧ lookup registry "ModelProject" = Raise KeyError
  ∧ KGProxy_init registry (inl "Person") (JStr "kg:person/1")
    = Ok {| proxy_cls := other; proxy_id := JStr "kg:person/1" |}.
Proof.
  intros other registry.
  destruct (registry_spec (register_class Store.Person ∅) other other "ModelProject"
              (JStr "kg:person/1") VNone VNone) as (Hone & _ & _ & Hnone & Hproxy & _).
  destruct (registry_spec ∅ Store.Person other "ModelProject"
              (JStr "kg:person/1") VNone VNone) as (_ & Hclash & _).
  split; [exact (Hclash eq_refl) |].
  split; [| exact Hproxy].
  apply Hnone. vm_compute. reflexivity.
Defined.

Lemma set_properties_declared (names : list string) (properties : list (string * value))
    (attrs : gmap string value) :
  Forall (fun kv => fst kv ∈ names) properties ->
  set_properties (Some names) properties attrs
  = Ok (foldl (fun m kv => <[fst kv := snd kv]> m) attrs properties).
Proof.
  intros H. revert attrs. induction H as [|[k v] rest Hk _ IH]; intros attrs.
  - reflexivity.
  - simpl in *. rewrite bool_decide_eq_true_2 by exact Hk. apply IH.
Qed.

Lemma foldl_insert_notin (properties : list (string * value)) (attrs : gmap string value)
    (k : string) :
  k ∉ properties.*1 ->
  foldl (fun m kv => <[fst kv := snd kv]> m) attrs properties !! k = attrs !! k.
Proof.
  revert attrs. induction properties as [|[k' v'] rest IH]; intros attrs Hk.
  - reflexivity.
  - simpl in *. apply not_elem_of_cons in Hk as [Hne Hk].
    rewrite IH by exact Hk. now rewrite lookup_insert_ne.
Qed.

Lemma foldl_insert_lookup (properties : list (string * value)) (attrs : gmap string value)
    (k : string) (v : value) :
  NoDup properties.*1 ->
  attrs !! k = None ->
  foldl (fun m kv => <[fst kv := snd kv]> m) attrs properties !! k = Some v
  <-> (k, v) ∈ properties.
Proof.
  revert attrs. induction properties as [|[k' v'] rest IH]; intros attrs Hnd Hfree.
  - simpl. rewrite Hfree. split; [discriminate | intros H; now apply not_elem_of_nil in H].
  - simpl in *. apply NoDup_cons in Hnd as [Hk' Hnd].
    destruct (decide (k' = k)) as [-> | Hne].
    + rewrite foldl_insert_notin by exact Hk'. rewrite lookup_insert_eq.
      split.
      * intros [= ->]. now left.
      * intros H. apply elem_of_cons in H as [[= ->] | H]; [reflexivity |].
        exfalso. apply Hk'. apply list_elem_of_fmap. now exists (k, v).
    + rewrite IH; [| exact Hnd | now rewrite lookup_insert_ne].
      split.
      * intros H. now right.
      * intros H. apply elem_of_cons in H as [[= -> ->] | H]; [contradiction | exact H].
Qed.

(** X7: a constructor call whose keywords are all declared by the class
    returns a new object, at a location no object had, that carries the
    class, the [id] and the [instance] given and exactly the keywords as
    attributes; the objects that existed, the identity cache and the store
    are untouched: an object built directly is not cached. *)
Theorem KGObject_new_declared {T : Type} (cls : KGClass) (names : list string) (id : json)
    (instance : option Instance) (properties : list (string * value)) (w : world T) :
  property_names cls = Some names ->
  Forall (fun kv => fst kv ∈ names) properties ->
  NoDup properties.*1 ->
  ∃ o, KGObject_new cls id instance properties w
       = ({| heap := heap w ++ [o]; kg_cache := kg_cache w;
             remote := remote w; calls := calls w |}, Ok (length (heap w)))
       ∧ obj_cls o = cls ∧ obj_id o = id ∧ obj_instance o = instance
       ∧ (forall k v, obj_attrs o !! k = Some v <-> (k, v) ∈ properties)
       ∧ heap w !! length (heap w) = None.
Proof.
  intros Hn Hall Hnd.
  eexists. split.
  { unfold KGObject_new, KGObject_init, lift, alloc, mbind, M_bind, result_bind, rbind.
    rewrite Hn, (set_properties_declared names properties ∅ Hall). reflexivity. }
  simpl. repeat split; try reflexivity.
  - now apply (foldl_insert_lookup properties ∅ k v Hnd).
  - now apply (foldl_insert_lookup properties ∅ k v Hnd).
  - now apply lookup_ge_None.
Qed.

Lemma KGObject_new_declared_witness :
  let properties := [("name", VStr "Ada Lovelace"); ("email", VStr "ada@example.org")] in
  Forall (fun kv => fst kv ∈ ["name"; "email"]) properties
  ∧ NoDup properties.*1
  ∧ ∃ o, KGObject_new Store.Person JNull None properties (Store.with_ada [])
         = ({| heap := [Store.ada; o]; kg_cache := ∅; remote := []; calls := [] |}, Ok 1)
         ∧ obj_id o = JNull
         ∧ (forall k v, obj_attrs o !! k = Some v <-> (k, v) ∈ properties).
Proof.
  intros properties.
  assert (Forall (fun kv => fst kv ∈ ["name"; "email"]) properties) as Hall.
  { repeat constructor. }
  assert (NoDup properties.*1) as Hnd.
  { apply NoDup_cons. split.
    - intros H. apply list_elem_of_singleton in H. discriminate.
    - apply NoDup_singleton. }
  split; [exact Hall |]. split; [exact Hnd |].
  destruct (KGObject_new_declared Store.Person ["name"; "email"] JNull None properties
              (Store.with_ada []) eq_refl Hall Hnd) as (o & Hnew & _ & Hid & _ & Hattrs & _).
  exists o. repeat split; try assumption; now apply Hattrs.
Defined.

(** * More on exists and save *)

Section ProtocolEdges.
Context {T : Type}.
Variable client : Client T.

Lemma KGObject_exists_inv (self : loc) (w w' : world T) (r : result bool) :
  KGObject_exists client self w = (w', r) ->
  kg_cache w' = kg_cache w
  ∧ (heap w' = heap w /\ r ≠ Ok true
     ∨ heap w' = heap w /\ (exists o, heap w !! self = Some o /\ truthy (obj_id o) = true)
     ∨ exists o i, heap w !! self = Some o /\ truthy (obj_id o) = false /\ r = Ok true
                   /\ heap w' = <[self := with_id o i]> (heap w)).
Proof.
  unfold KGObject_exists, get_obj, lift, invoke, update_obj, mbind, M_bind, mret, M_ret.
  destruct (heap w !! self) as [o|] eqn:Ho;
    [| intros [= <- <-]; split; [reflexivity | left; split; [reflexivity | discriminate]]].
  destruct (truthy (obj_id o)) eqn:Ht.
  { intros [= <- <-]. split; [reflexivity |]. right; left. split; [reflexivity |]. eauto. }
  destruct (get_name o) as [name|e];
    [| intros [= <- <-]; split; [reflexivity | left; split; [reflexivity | discriminate]]].
  destruct (filter_query client _ _ _ (remote w)) as [t' [[|first rest]|e]]; simpl;
    try (intros [= <- <-]; split; [reflexivity | left; split; [reflexivity | discriminate]]).
  destruct (at_id first) as [i|e]; simpl;
    [| intros [= <- <-]; split; [reflexivity | left; split; [reflexivity | discriminate]]].
  intros [= <- <-]. split; [reflexivity |]. right; right.
  exists o, i. repeat split; auto. simpl.
  exact (alter_lookup_insert (fun o1 => with_id o1 i) _ _ _ Ho).
Qed.

(** What a [save] can do to the heap and to the cache, whatever its
    outcome. *)
Lemma KGObject_save_inv (self : loc) (doc : json) (exists_ok : bool) (w w' : world T)
    (r : result unit) :
  KGObject_save client self doc exists_ok w = (w', r) ->
  (heap w' = heap w
   ∨ exists o o', heap w !! self = Some o /\ heap w' = <[self := o']> (heap w)
                  /\ obj_cls o' = obj_cls o /\ obj_attrs o' = obj_attrs o
                  /\ (truthy (obj_id o) = true -> obj_id o' = obj_id o))
  ∧ (kg_cache w' = kg_cache w ∨ exists k, kg_cache w' = <[k := self]> (kg_cache w)).
Proof.
  unfold KGObject_save, mbind, M_bind. unfold get_obj at 1.
  destruct (heap w !! self) as [o|] eqn:Ho; [| intros [= <- <-]; split; now left].
  destruct (truthy (obj_id o)) eqn:Ht.
  { unfold invoke, update_obj.
    destruct (update_instance client (obj_instance o) (remote w)) as [t' [inst'|e]];
      intros [= <- <-]; simpl; (split; [| now left]); [| now left].
    right. exists o, (with_instance o inst'). repeat split; auto.
    exact (alter_lookup_insert (fun o1 => with_instance o1 inst') _ _ _ Ho). }
  destruct (KGObject_exists client self w) as [w1 [found|e]] eqn:He;
    destruct (KGObject_exists_inv self w w1 _ He) as [Hc Hh].
  - destruct found.
    + destruct exists_ok; intros H; unfold mret, M_ret, raise in H;
        injection H as <- <-; (split; [| now left]);
        (destruct Hh as [[Hh _] | [[Hh _] | (o0 & i & Ho0 & Ht0 & _ & Hh)]];
         [now left | now left |]);
        right; exists o0, (with_id o0 i); repeat split; auto; congruence.
    + assert (heap w1 = heap w) as Hh1.
      { destruct Hh as [[Hh _] | [[Hh _] | (o0 & i & _ & _ & [=] & _)]]; exact Hh. }
      unfold invoke, lift, update_obj, cache_setitem, cache_put, mbind, M_bind.
      destruct (create_new_instance client _ _ (remote w1)) as [t2 [inst|e]]; simpl;
        [| intros [= <- <-]; simpl; split; [left; exact Hh1 | left; exact Hc]].
      destruct (at_id inst) as [i|e]; simpl;
        [| intros [= <- <-]; simpl; split; [left; exact Hh1 | left; exact Hc]].
      assert (alter (fun o1 => with_instance o1 inst) self
                (alter (fun o1 => with_id o1 i) self (heap w1))
              = <[self := with_instance (with_id o i) inst]> (heap w)) as Halt.
      { rewrite Hh1, (alter_lookup_insert _ _ _ _ Ho).
        rewrite (alter_lookup_insert _ _ self (with_id o i));
          [now rewrite list_insert_insert_eq |].
        apply list_lookup_insert_eq. eapply lookup_lt_Some; eauto. }
      destruct (hash_key i) as [k|e]; simpl; intros [= <- <-]; simpl; rewrite Halt.
      * split; [| right; exists k; now rewrite Hc].
        right. exists o, (with_instance (with_id o i) inst). repeat split; auto. congruence.
      * split; [| left; exact Hc].
        right. exists o, (with_instance (with_id o i) inst). repeat split; auto. congruence.
  - intros [= <- <-]. split; [| left; exact Hc].
    destruct Hh as [[Hh _] | [[Hh _] | (o0 & i & _ & _ & [=] & _)]]; now left.
Qed.

(** X8: whatever its outcome, [save] touches no object but the one it is
    called on, and of that one only [id] and [instance]: the heap keeps
    its size, every other object and the class and attributes of the
    object are what they were, an identifier that was set (true in the
    Python sense) stays the same, and the identity cache gains at most
    one entry, for the object itself. *)
Theorem KGObject_save_frame (self : loc) (doc : json) (exists_ok : bool) (w w' : world T)
    (r : result unit) (o : KGObj) :
  KGObject_save client self doc exists_ok w = (w', r) ->
  heap w !! self = Some o ->
  length (heap w') = length (heap w)
  ∧ (forall l, l ≠ self -> heap w' !! l = heap w !! l)
  ∧ (exists o', heap w' !! self = Some o'
                /\ obj_cls o' = obj_cls o /\ obj_attrs o' = obj_attrs o
                /\ (truthy (obj_id o) = true -> obj_id o' = obj_id o))
  ∧ (forall k l, kg_cache w' !! k = Some l -> kg_cache w !! k = Some l \/ l = self).
Proof.
  intros Hs Ho. destruct (KGObject_save_inv self doc exists_ok w w' r Hs) as [Hh Hc].
  assert (forall k l, kg_cache w' !! k = Some l -> kg_cache w !! k = Some l \/ l = self) as Hc'.
  { intros k l Hl. destruct Hc as [Heq | [k0 Heq]]; rewrite Heq in Hl; [now left |].
    destruct (decide (k0 = k)) as [-> | Hne].
    - rewrite lookup_insert_eq in Hl. right. congruence.
    - rewrite lookup_insert_ne in Hl by exact Hne. now left. }
  destruct Hh as [Heq | (o0 & o' & Ho0 & Heq & Hcls & Hattrs & Hid)]; rewrite Heq.
  - repeat split; auto. exists o. repeat split; auto.
  - assert (o0 = o) as -> by congruence.
    split; [apply length_insert |].
    split; [intros l Hl; now rewrite list_lookup_insert_ne |].
    split; [| exact Hc'].
    exists o'. repeat split; auto.
    apply list_lookup_insert_eq. eapply lookup_lt_Some; eauto.
Qed.
End ProtocolEdges.

Lemma KGObject_save_frame_witness :
  let saved := with_id Store.ada (JStr "kg:person/1") in
  let w := {| heap := [saved; Store.ada]; kg_cache := ∅;
              remote := Store.people; calls := [] |} in
  let w' := fst (KGObject_save Store.client 0 Store.ada_doc true w) in
  length (heap w') = 2
  ∧ heap w' !! 1 = Some Store.ada
  ∧ ∃ o', heap w' !! 0 = Some o' ∧ obj_id o' = JStr "kg:person/1".
Proof.
  intros saved w w'.
  destruct (KGObject_save_frame Store.client 0 Store.ada_doc true w w'
              (snd (KGObject_save Store.client 0 Store.ada_doc true w)) saved
              (surjective_pairing _) eq_refl) as (Hlen & Hother & (o' & Ho' & _ & _ & Hid) & _).
  split; [exact Hlen |].
  split; [transitivity (heap w !! 1); [apply (Hother 1); discriminate | reflexivity] |].
  exists o'. split; [exact Ho' | now apply Hid].
Defined.

Section ProtocolFailures.
Context {T : Type}.
Variable client : Client T.

(** X9: for an object without identifier, [exists] and [save] fail
    without changing the object or the cache when the object has no
    [name] attribute ([AttributeError], before any call to the client),
    when the client fails the name query (its exception passes through),
    and when the first match has no ["@id"] ([KeyError]); in none of these
    cases a create is sent. *)
Theorem KGObject_exists_failure (self : loc) (w : world T) (o : KGObj) (name : value)
    (t' : T) (first : Instance) (rest : list Instance) (e : exn)
    (doc : json) (exists_ok : bool) :
  heap w !! self = Some o ->
  truthy (obj_id o) = false ->
  (obj_attrs o !! "name" = None ->
   KGObject_exists client self w = (w, Raise AttributeError)
   ∧ KGObject_save client self doc exists_ok w = (w, Raise AttributeError))
  ∧ (get_name o = Ok name ->
     filter_query client (cls_path (obj_cls o)) (name_filter name) name_context (remote w)
       = (t', Raise e) ->
     KGObject_exists client self w = (queried w o name t', Raise e)
     ∧ KGObject_save client self doc exists_ok w = (queried w o name t', Raise e))
  ∧ (get_name o = Ok name ->
     filter_query client (cls_path (obj_cls o)) (name_filter name) name_context (remote w)
       = (t', Ok (first :: rest)) ->
     dict_get (data first) "@id" = None ->
     KGObject_exists client self w = (queried w o name t', Raise KeyError)
     ∧ KGObject_save client self doc exists_ok w = (queried w o name t', Raise KeyError)).
Proof.
  intros Ho Ht.
  assert (forall w1 err, KGObject_exists client self w = (w1, Raise err) ->
            KGObject_save client self doc exists_ok w = (w1, Raise err)) as Hsave.
  { intros w1 err He. unfold KGObject_save, mbind, M_bind. unfold get_obj at 1.
    now rewrite Ho, Ht, He. }
  split; [| split].
  - intros Hn.
    assert (KGObject_exists client self w = (w, Raise AttributeError)) as He.
    { unfold KGObject_exists, get_obj, get_name, lift, mbind, M_bind.
      now rewrite Ho, Ht, Hn. }
    split; [exact He | now apply Hsave].
  - intros Hn Hq.
    assert (KGObject_exists client self w = (queried w o name t', Raise e)) as He.
    { unfold KGObject_exists, get_obj, lift, invoke, mbind, M_bind.
      now rewrite Ho, Ht, Hn, Hq. }
    split; [exact He | now apply Hsave].
  - intros Hn Hq Hid.
    assert (KGObject_exists client self w = (queried w o name t', Raise KeyError)) as He.
    { unfold KGObject_exists, get_obj, lift, invoke, at_id, getitem, mbind, M_bind.
      now rewrite Ho, Ht, Hn, Hq, Hid. }
    split; [exact He | now apply Hsave].
Qed.

(** X10: once [exists] has stored the identifier of a match in the
    object (an identifier that is true in the Python sense), a further
    [exists] answers [True] without a call to the client, and [save] takes
    the update branch: it sends [update_instance] with the instance the
    object had, [None] for an object built without one, and no create. *)
Theorem KGObject_after_adoption (self : loc) (w : world T) (o : KGObj) (name : value)
    (t' t'' : T) (first : Instance) (rest : list Instance) (i : json)
    (doc : json) (exists_ok : bool) (answer : result Instance) :
  heap w !! self = Some o ->
  truthy (obj_id o) = false ->
  get_name o = Ok name ->
  filter_query client (cls_path (obj_cls o)) (name_filter name) name_context (remote w)
    = (t', Ok (first :: rest)) ->
  at_id first = Ok i ->
  truthy i = true ->
  update_instance client (obj_instance o) t' = (t'', answer) ->
  let w1 := fst (KGObject_exists client self w) in
  KGObject_exists client self w1 = (w1, Ok true)
  ∧ calls (fst (KGObject_save client self doc exists_ok w1))
    = calls w1 ++ [UpdateInstance (obj_instance o)]
  ∧ creates (fst (KGObject_save client self doc exists_ok w1)) = creates w.
Proof.
  intros Ho Ht Hn Hq Hi Hti Hu w1.
  assert (w1 = set_heap (queried w o name t') (<[self := with_id o i]> (heap w))) as Hw1.
  { unfold w1. now rewrite (KGObject_exists_found client self w o name t' first rest i). }
  assert (heap w1 !! self = Some (with_id o i)) as Ho1.
  { rewrite Hw1. simpl. apply list_lookup_insert_eq. eapply lookup_lt_Some; eauto. }
  split; [now apply (KGObject_exists_known client self w1 (with_id o i)) |].
  assert (remote w1 = t') as Hr by now rewrite Hw1.
  assert (calls (fst (KGObject_save client self doc exists_ok w1))
          = calls w1 ++ [UpdateInstance (obj_instance o)]) as Hcalls.
  { destruct answer as [inst'|err].
    - rewrite (KGObject_save_update client self w1 (with_id o i) doc exists_ok t'' inst'
                 Ho1 Hti); [reflexivity |]. simpl. now rewrite Hr.
    - rewrite (KGObject_save_update_fails client self w1 (with_id o i) doc exists_ok t'' err
                 Ho1 Hti); [reflexivity |]. simpl. now rewrite Hr. }
  split; [exact Hcalls |].
  unfold creates. rewrite Hcalls, Hw1. simpl.
  rewrite !List.filter_app. simpl. now rewrite !app_nil_r.
Qed.

(** X11: a create whose answer cannot be used.  When the client fails the
    create, or answers with a document that has no ["@id"], the call has
    been sent but the object has still no identifier and no instance and
    is not cached; when the ["@id"] of the answer is unhashable (a list or
    a mapping), the object has taken identifier and instance but is not
    cached, and [save] raises [TypeError]. *)
Theorem KGObject_save_create_unusable (self : loc) (w : world T) (o : KGObj) (name : value)
    (t1 t2 : T) (answer : result Instance) (doc : json) (exists_ok : bool) :
  heap w !! self = Some o ->
  truthy (obj_id o) = false ->
  get_name o = Ok name ->
  filter_query client (cls_path (obj_cls o)) (name_filter name) name_context (remote w)
    = (t1, Ok []) ->
  create_new_instance client (cls_path (obj_cls o)) doc t1 = (t2, answer) ->
  let sent := answered (queried w o name t1)
                (CreateNewInstance (cls_path (obj_cls o)) doc) t2 in
  (forall e, answer = Raise e ->
     KGObject_save client self doc exists_ok w = (sent, Raise e))
  ∧ (forall inst, answer = Ok inst -> dict_get (data inst) "@id" = None ->
       KGObject_save client self doc exists_ok w = (sent, Raise KeyError))
  ∧ (forall inst i, answer = Ok inst -> at_id inst = Ok i -> hash_key i = Raise TypeError ->
       KGObject_save client self doc exists_ok w
       = (set_heap sent (<[self := with_instance (with_id o i) inst]> (heap w)),
          Raise TypeError))
  ∧ heap sent = heap w ∧ kg_cache sent = kg_cache w
  ∧ creates sent = S (creates w).
Proof.
  intros Ho Ht Hn Hq Hc sent.
  assert (forall k : unit -> world T * result unit,
            KGObject_save client self doc exists_ok w
            = match answer with
              | Raise e => (sent, Raise e)
              | Ok inst =>
                  match at_id inst with
                  | Raise e => (sent, Raise e)
                  | Ok i =>
                      match hash_key i with
                      | Raise e =>
                          (set_heap sent (<[self := with_instance (with_id o i) inst]> (heap w)),
                           Raise e)
                      | Ok key =>
                          (set_cache
                             (set_heap sent (<[self := with_instance (with_id o i) inst]> (heap w)))
                             (<[key := self]> (kg_cache w)), Ok tt)
                      end
                  end
              end) as Hrun.
  { intros _. unfold KGObject_save, mbind, M_bind. unfold get_obj at 1. rewrite Ho, Ht.
    rewrite (KGObject_exists_none client self w o name t1 Ho Ht Hn Hq).
    unfold invoke, lift, update_obj, cache_setitem, cache_put, mbind, M_bind, queried.
    simpl. rewrite Hc. destruct answer as [inst|e]; [| reflexivity].
    destruct (at_id inst) as [i|e]; [| reflexivity]. simpl.
    rewrite (alter_lookup_insert _ _ _ _ Ho).
    rewrite (alter_lookup_insert _ _ self (with_id o i))
      by (apply list_lookup_insert_eq; eapply lookup_lt_Some; eauto).
    rewrite list_insert_insert_eq.
    destruct (hash_key i); reflexivity. }
  specialize (Hrun (fun _ => (w, Ok tt))).
  split; [intros e ->; exact Hrun |].
  split.
  { intros inst -> Hid. rewrite Hrun. unfold at_id, getitem. now rewrite Hid. }
  split.
  { intros inst i -> Hi Hk. now rewrite Hrun, Hi, Hk. }
  split; [reflexivity |]. split; [reflexivity |].
  unfold creates, sent, answered, queried. simpl.
  rewrite !List.filter_app. simpl. rewrite !length_app. simpl. lia.
Qed.

(** X12: [rev] follows the instance of the object: it is [None] for an
    object without instance, and after a [save] that went through it is
    the ["nxv:rev"] of the answer of the client ([None] when the answer
    has none): of the updated instance after an update, of the created
    instance after a create. *)
Theorem rev_after_save (self : loc) (w : world T) (o : KGObj) (name : value)
    (t1 t2 t' : T) (created updated : Instance) (i : json) (k : key)
    (doc : json) (exists_ok : bool) :
  heap w !! self = Some o ->
  (obj_instance o = None -> rev o = JNull)
  ∧ (truthy (obj_id o) = true ->
     update_instance client (obj_instance o) (remote w) = (t', Ok updated) ->
     rev <$> heap (fst (KGObject_save client self doc exists_ok w)) !! self
     = Some (default JNull (dict_get (data updated) "nxv:rev")))
  ∧ (truthy (obj_id o) = false ->
     get_name o = Ok name ->
     filter_query client (cls_path (obj_cls o)) (name_filter name) name_context (remote w)
       = (t1, Ok []) ->
     create_new_instance client (cls_path (obj_cls o)) doc t1 = (t2, Ok created) ->
     at_id created = Ok i ->
     hash_key i = Ok k ->
     rev <$> heap (fst (KGObject_save client self doc exists_ok w)) !! self
     = Some (default JNull (dict_get (data created) "nxv:rev"))).
Proof.
  intros Ho.
  assert (self < length (heap w)) as Hlt by (eapply lookup_lt_Some; eauto).
  split; [| split].
  - intros Hi. unfold rev. now rewrite Hi.
  - intros Ht Hu.
    rewrite (KGObject_save_update client self w o doc exists_ok t' updated Ho Ht Hu).
    simpl. now rewrite list_lookup_insert_eq.
  - intros Ht Hn Hq Hc Hi Hk.
    rewrite (KGObject_save_create client self w o name t1 t2 created i k doc exists_ok
               Ho Ht Hn Hq Hc Hi Hk).
    simpl. now rewrite list_lookup_insert_eq.
Qed.
End ProtocolFailures.

Lemma KGObject_exists_failure_witness :
  let nameless := {| obj_cls := Store.ValidationResult; obj_attrs := ∅;
                     obj_id := JNull; obj_instance := None |} in
  let w0 : world Store.state :=
    {| heap := [nameless]; kg_cache := ∅; remote := Store.people; calls := [] |} in
  let broken := [{| data := [("name", JStr "Ada Lovelace")] |}] in
  KGObject_new Store.ValidationResult JNull None [] (Store.init Store.people) = (w0, Ok 0)
  ∧ KGObject_save Store.client 0 Store.ada_doc true w0 = (w0, Raise AttributeError)
  ∧ KGObject_save Store.offline 0 Store.ada_doc true (Store.with_ada [])
    = ({| heap := [Store.ada]; kg_cache := ∅; remote := []; calls := [Store.ada_query] |},
       Raise (TransportError "offline"))
  ∧ KGObject_exists Store.client 0 (Store.with_ada broken)
    = ({| heap := [Store.ada]; kg_cache := ∅; remote := broken; calls := [Store.ada_query] |},
       Raise KeyError).
Proof.
  intros nameless w0 broken.
  split; [reflexivity |].
  split.
  { exact (proj2 (proj1 (KGObject_exists_failure Store.client 0 w0 nameless VNone []
                           (Store.doc "kg:person/1" "Ada Lovelace") [] KeyError
                           Store.ada_doc true eq_refl eq_refl) eq_refl)). }
  split.
  { exact (proj2 (proj1 (proj2 (KGObject_exists_failure Store.offline 0 (Store.with_ada [])
                           Store.ada (VStr "Ada Lovelace") []
                           (Store.doc "kg:person/1" "Ada Lovelace") []
                           (TransportError "offline") Store.ada_doc true eq_refl eq_refl))
                    eq_refl eq_refl)). }
  exact (proj1 (proj2 (proj2 (KGObject_exists_failure Store.client 0 (Store.with_ada broken)
                           Store.ada (VStr "Ada Lovelace") broken
                           {| data := [("name", JStr "Ada Lovelace")] |} [] KeyError
                           Store.ada_doc true eq_refl eq_refl))
                  eq_refl eq_refl eq_refl)).
Defined.

Lemma KGObject_after_adoption_witness :
  let st := [Store.doc "kg:person/1" "Ada Lovelace"] in
  let w1 := fst (KGObject_exists Store.client 0 (Store.with_ada st)) in
  KGObject_exists Store.client 0 w1 = (w1, Ok true)
  ∧ calls (fst (KGObject_save Store.client 0 Store.ada_doc true w1))
    = calls w1 ++ [UpdateInstance None]
  ∧ creates (fst (KGObject_save Store.client 0 Store.ada_doc true w1)) = 0.
Proof.
  intros st w1.
  exact (KGObject_after_adoption Store.client 0 (Store.with_ada st) Store.ada
           (VStr "Ada Lovelace") st st (Store.doc "kg:person/1" "Ada Lovelace") []
           (JStr "kg:person/1") Store.ada_doc true
           (Raise (TransportError "nothing to update"))
           eq_refl eq_refl eq_refl eq_refl eq_refl eq_refl eq_refl).
Defined.

Lemma KGObject_save_create_unusable_witness :
  let sent := fun doc : json =>
    {| heap := [Store.ada]; kg_cache := ∅;
       remote := [{| data := match doc with JDict d => d | _ => [] end |}];
       calls := [Store.ada_query;
                 CreateNewInstance "neuralactivity/core/person/v0.1.0" doc] |} in
  let odd := JDict [("@id", JList [JStr "kg:person/1"]); ("name", JStr "Ada Lovelace")] in
  let stored := {| data := [("@id", JList [JStr "kg:person/1"]); ("name", JStr "Ada Lovelace")] |} in
  KGObject_save Store.echo 0 Store.ada_doc true (Store.with_ada [])
  = (sent Store.ada_doc, Raise KeyError)
  ∧ KGObject_save Store.echo 0 odd true (Store.with_ada [])
    = (set_heap (sent odd)
         [with_instance (with_id Store.ada (JList [JStr "kg:person/1"])) stored],
       Raise TypeError).
Proof.
  intros sent odd stored. split.
  - destruct (KGObject_save_create_unusable Store.echo 0 (Store.with_ada []) Store.ada
                (VStr "Ada Lovelace") []
                [{| data := [("@type", JStr "nsg:Person"); ("name", JStr "Ada Lovelace")] |}]
                (Ok {| data := [("@type", JStr "nsg:Person"); ("name", JStr "Ada Lovelace")] |})
                Store.ada_doc true eq_refl eq_refl eq_refl eq_refl eq_refl)
      as (_ & Hnoid & _).
    exact (Hnoid _ eq_refl eq_refl).
  - destruct (KGObject_save_create_unusable Store.echo 0 (Store.with_ada []) Store.ada
                (VStr "Ada Lovelace") [] [stored] (Ok stored)
                odd true eq_refl eq_refl eq_refl eq_refl eq_refl)
      as (_ & _ & Hlist & _).
    exact (Hlist stored (JList [JStr "kg:person/1"]) eq_refl eq_refl eq_refl).
Defined.

Lemma rev_after_save_witness :
  let stored := {| data := [("@id", JStr "kg:person/1"); ("name", JStr "Ada Lovelace");
                            ("nxv:rev", JNum 3)] |} in
  let loaded := with_instance (with_id Store.ada (JStr "kg:person/1")) stored in
  let w : world Store.state :=
    {| heap := [loaded]; kg_cache := ∅; remote := [stored]; calls := [] |} in
  rev Store.ada = JNull
  ∧ rev <$> heap (fst (KGObject_save Store.client 0 Store.ada_doc true w)) !! 0
    = Some (JNum 3)
  ∧ rev <$> heap (fst (KGObject_save Store.client 0 Store.ada_doc true (Store.with_ada []))) !! 0
    = Some JNull.
Proof.
  intros stored loaded w.
  split.
  { exact (proj1 (rev_after_save Store.client 0 (Store.with_ada []) Store.ada VNone [] [] []
                    stored stored JNull KNone Store.ada_doc true eq_refl) eq_refl). }
  split.
  { exact (proj1 (proj2 (rev_after_save Store.client 0 w loaded VNone [] [] [stored]
                           stored stored JNull KNone Store.ada_doc true eq_refl))
             eq_refl eq_refl). }
  pose (created := {| data := [("@id", JStr "neuralactivity/core/person/v0.1.0/0");
                               ("@type", JStr "nsg:Person");
                               ("name", JStr "Ada Lovelace")] |}).
  exact (proj2 (proj2 (rev_after_save Store.client 0 (Store.with_ada []) Store.ada
                         (VStr "Ada Lovelace") [] [created] [] created created
                         (JStr "neuralactivity/core/person/v0.1.0/0")
                         (KStr "neuralactivity/core/person/v0.1.0/0") Store.ada_doc true
                         eq_refl))
           eq_refl eq_refl eq_refl eq_refl eq_refl eq_refl).
Defined.

(** * More on resolution *)

Section ResolutionEdges.
Context {T : Type}.
Variable client : Client T.
Variable fields_of : KGClass -> option (dict -> result (gmap string value)).

Lemma KGProxy_resolve_run (p : KGProxy) (w : world T) :
  KGProxy_resolve client fields_of p w =
    match hash_key (proxy_id p) with
    | Raise e => (w, Raise e)
    | Ok kp =>
        match kg_cache w !! kp with
        | Some obj => (w, Ok obj)
        | None =>
            match instance_from_full_uri client (proxy_id p) (remote w) with
            | (t', Raise e) => (answered w (InstanceFromFullUri (proxy_id p)) t', Raise e)
            | (t', Ok instance) =>
                match from_kg_instance fields_of (proxy_cls p) instance
                        (answered w (InstanceFromFullUri (proxy_id p)) t') with
                | (w1, Ok obj) => (set_cache w1 (<[kp := obj]> (kg_cache w1)), Ok obj)
                | (w1, Raise e) => (w1, Raise e)
                end
            end
        end
    end.
Proof.
  unfold KGProxy_resolve, cache_find, cache_get, cache_setitem, cache_put, from_uri,
    invoke, lift, mbind, M_bind, mret, M_ret, answered, set_cache.
  destruct (hash_key (proxy_id p)) as [kp|e]; [| reflexivity].
  destruct (kg_cache w !! kp); [reflexivity |].
  destruct (instance_from_full_uri client (proxy_id p) (remote w)) as [t' [instance|e]];
    [| reflexivity].
  destruct (from_kg_instance fields_of (proxy_cls p) instance _) as [w1 [obj|e]];
    reflexivity.
Qed.

Lemma from_kg_instance_failure (cls : KGClass) (instance : Instance) (w w' : world T)
    (e : exn) :
  from_kg_instance fields_of cls instance w = (w', Raise e) -> w' = w.
Proof.
  rewrite from_kg_instance_run.
  repeat match goal with
         | |- context [match ?x with _ => _ end] => destruct x
         end; congruence.
Qed.

(** X13: an object that [save] has created is found again: with the
    identifier the store gave it, a proxy resolves to the object itself
    without a call to the client, and the caching factory returns the
    object itself for any document that carries this ["@id"]. *)
Theorem saved_object_resolves (self : loc) (w : world T) (o : KGObj) (name : value)
    (t1 t2 : T) (inst : Instance) (i : json) (k : key) (doc : json) (exists_ok : bool) :
  heap w !! self = Some o ->
  truthy (obj_id o) = false ->
  get_name o = Ok name ->
  filter_query client (cls_path (obj_cls o)) (name_filter name) name_context (remote w)
    = (t1, Ok []) ->
  create_new_instance client (cls_path (obj_cls o)) doc t1 = (t2, Ok inst) ->
  at_id inst = Ok i ->
  hash_key i = Ok k ->
  let w1 := fst (KGObject_save client self doc exists_ok w) in
  (forall p, proxy_id p = i -> KGProxy_resolve client fields_of p w1 = (w1, Ok self))
  ∧ (forall cls read instance,
       fields_of cls = Some read -> at_id instance = Ok i ->
       from_kg_instance fields_of cls instance w1 = (w1, Ok self)).
Proof.
  intros Ho Ht Hn Hq Hc Hi Hk w1.
  assert (kg_cache w1 !! k = Some self) as Hcached.
  { unfold w1.
    rewrite (KGObject_save_create client self w o name t1 t2 inst i k doc exists_ok
               Ho Ht Hn Hq Hc Hi Hk).
    simpl. apply lookup_insert_eq. }
  split.
  - intros p <-. now rewrite KGProxy_resolve_run, Hk, Hcached.
  - intros cls read instance Hf Hi'.
    now rewrite from_kg_instance_run, Hf, Hi', Hk, Hcached.
Qed.

(** X14: an object whose identifier [save] took over from a stored match
    is not entered in the identity cache.  The cache is what it was, and
    when the identifier is not cached otherwise, resolving a proxy for it
    builds a second object: afterwards the heap holds two objects with this
    identifier, the saved one and the cached one. *)
Theorem adopted_object_not_cached (self : loc) (w : world T) (o : KGObj) (name : value)
    (t' t'' : T) (first : Instance) (rest : list Instance) (i : json) (k : key)
    (doc : json) (p : KGProxy) (read : dict -> result (gmap string value))
    (instance : Instance) (attrs : gmap string value) :
  heap w !! self = Some o ->
  truthy (obj_id o) = false ->
  get_name o = Ok name ->
  filter_query client (cls_path (obj_cls o)) (name_filter name) name_context (remote w)
    = (t', Ok (first :: rest)) ->
  at_id first = Ok i ->
  hash_key i = Ok k ->
  kg_cache w !! k = None ->
  proxy_id p = i ->
  instance_from_full_uri client i t' = (t'', Ok instance) ->
  fields_of (proxy_cls p) = Some read ->
  at_id instance = Ok i ->
  read (data instance) = Ok attrs ->
  let w1 := fst (KGObject_save client self doc true w) in
  let w2 := fst (KGProxy_resolve client fields_of p w1) in
  kg_cache w1 = kg_cache w
  ∧ KGProxy_resolve client fields_of p w1 = (w2, Ok (length (heap w)))
  ∧ length (heap w) ≠ self
  ∧ heap w2 !! self = Some (with_id o i)
  ∧ heap w2 !! length (heap w) = Some (obj_of (proxy_cls p) attrs i instance).
Proof.
  intros Ho Ht Hn Hq Hi Hk Hnone Hp Hu Hf Hi' Hr w1 w2.
  assert (self < length (heap w)) as Hlt by (eapply lookup_lt_Some; eauto).
  assert (w1 = set_heap (queried w o name t') (<[self := with_id o i]> (heap w))) as Hw1.
  { unfold w1.
    now rewrite (KGObject_save_found client self w o name t' first rest i doc true). }
  assert (KGProxy_resolve client fields_of p w1
          = (set_cache (loaded (answered w1 (InstanceFromFullUri i) t'') k
                          (obj_of (proxy_cls p) attrs i instance))
               (<[k := length (heap w)]> (<[k := length (heap w)]> (kg_cache w))),
             Ok (length (heap w)))) as Hres.
  { rewrite KGProxy_resolve_run, Hp, Hk, Hw1. simpl. rewrite Hnone, Hu.
    rewrite from_kg_instance_run, Hf, Hi', Hk. simpl. rewrite Hnone, Hr.
    unfold loaded. simpl. now rewrite !length_insert. }
  split; [now rewrite Hw1 |].
  split; [unfold w2; now rewrite Hres |].
  split; [lia |].
  unfold w2. rewrite Hres, Hw1. simpl.
  split.
  - rewrite lookup_app_l by (now rewrite length_insert).
    now apply list_lookup_insert_eq.
  - apply list_lookup_middle. now rewrite length_insert.
Qed.

(** X15: a class without a [from_kg_instance] of its own cannot be
    resolved.  The method of [KGObject] raises [NotImplementedError] and
    changes nothing; a query on such a class returns the empty list for an
    empty answer and raises for any other answer; a proxy that is not
    cached raises after the client has been asked, and nothing is cached. *)
Theorem class_without_factory (cls : KGClass) (instance : Instance) (w : world T)
    (q : KGQuery) (p : KGProxy) (t' : T) (answer : list Instance) (kp : key) :
  fields_of cls = None ->
  from_kg_instance fields_of cls instance w = (w, Raise NotImplementedError)
  ∧ (query_cls q = cls ->
     filter_query client (cls_path cls) (query_filter q) (query_context q) (remote w)
       = (t', Ok answer) ->
     KGQuery_resolve client fields_of q w
     = (answered w (listing q) t',
        match answer with
        | [] => Ok (VList [])
        | _ => Raise NotImplementedError
        end))
  ∧ (proxy_cls p = cls ->
     hash_key (proxy_id p) = Ok kp ->
     kg_cache w !! kp = None ->
     instance_from_full_uri client (proxy_id p) (remote w) = (t', Ok instance) ->
     KGProxy_resolve client fields_of p w
     = (answered w (InstanceFromFullUri (proxy_id p)) t', Raise NotImplementedError)).
Proof.
  intros Hf.
  assert (forall inst (w0 : world T), from_kg_instance fields_of cls inst w0
                                      = (w0, Raise NotImplementedError)) as Hraise.
  { intros inst w0. now rewrite from_kg_instance_run, Hf. }
  split; [apply Hraise |]. split.
  - intros Hq Ha. rewrite KGQuery_resolve_run, Hq, Ha.
    destruct answer as [|first rest]; [reflexivity |].
    now rewrite mapM_cons, Hraise.
  - intros Hp Hk Hc Hu. now rewrite KGProxy_resolve_run, Hk, Hc, Hu, Hp, Hraise.
Qed.
(** X16: a resolution that fails caches nothing.  When the caching
    factory raises, for whatever reason, the world is exactly what it was;
    when [KGProxy.resolve] raises, objects and identity cache are what they
    were (the client may have been called); and a document without
    ["@id"] makes the [cache] wrapper raise [KeyError] before the wrapped
    function is called, whatever that function is. *)
Theorem failed_resolution (cls : KGClass) (instance : Instance) (p : KGProxy)
    (w w1 w2 : world T) (e1 e2 : exn) (f : KGClass -> Instance -> M loc) :
  (from_kg_instance fields_of cls instance w = (w1, Raise e1) -> w1 = w)
  ∧ (KGProxy_resolve client fields_of p w = (w2, Raise e2) ->
     heap w2 = heap w ∧ kg_cache w2 = kg_cache w)
  ∧ (dict_get (data instance) "@id" = None ->
     cache f cls instance w = (w, Raise KeyError)).
Proof.
  split; [apply from_kg_instance_failure |]. split.
  - rewrite KGProxy_resolve_run.
    destruct (hash_key (proxy_id p)) as [kp|e]; [| intros [= <- _]; now split].
    destruct (kg_cache w !! kp); [discriminate |].
    destruct (instance_from_full_uri client (proxy_id p) (remote w)) as [t' [inst|e]];
      [| intros [= <- _]; now split].
    destruct (from_kg_instance fields_of (proxy_cls p) inst _) as [w' [obj|e]] eqn:Hf;
      [discriminate |].
    intros [= <- _]. apply from_kg_instance_failure in Hf. subst w'. now split.
  - intros Hid. unfold cache, at_id, getitem, lift, mbind, M_bind. now rewrite Hid.
Qed.

(** X17: resolution is idempotent.  When the caching factory has
    returned an object for a document, or [KGProxy.resolve] an object for
    a proxy, the same call repeated at once returns the same object and
    changes nothing: no call to the client, no new object. *)
Theorem resolution_idempotent (cls : KGClass) (instance : Instance) (p : KGProxy)
    (w w1 w2 : world T) (obj1 obj2 : loc) :
  (from_kg_instance fields_of cls instance w = (w1, Ok obj1) ->
   from_kg_instance fields_of cls instance w1 = (w1, Ok obj1))
  ∧ (KGProxy_resolve client fields_of p w = (w2, Ok obj2) ->
     KGProxy_resolve client fields_of p w2 = (w2, Ok obj2)).
Proof.
  split.
  - rewrite !from_kg_instance_run.
    destruct (fields_of cls) as [read|]; [| discriminate].
    destruct (at_id instance) as [i|]; [| discriminate].
    destruct (hash_key i) as [k|]; [| discriminate].
    destruct (kg_cache w !! k) as [l|] eqn:Hc.
    + intros [= <- <-]. now rewrite Hc.
    + destruct (read (data instance)) as [attrs|]; [| discriminate].
      intros [= <- <-]. simpl. now rewrite lookup_insert_eq.
  - rewrite !KGProxy_resolve_run.
    destruct (hash_key (proxy_id p)) as [kp|]; [| discriminate].
    destruct (kg_cache w !! kp) as [l|] eqn:Hc.
    + intros [= <- <-]. now rewrite Hc.
    + destruct (instance_from_full_uri client (proxy_id p) (remote w)) as [t' [inst|]];
        [| discriminate].
      destruct (from_kg_instance fields_of (proxy_cls p) inst _) as [w' [obj|]];
        [| discriminate].
      intros [= <- <-]. simpl. now rewrite lookup_insert_eq.
Qed.

(** X18: a query gives one object per identifier.  When the answer of
    the client holds the same ["@id"] at two places, the result holds the
    same object at these two places. *)
Theorem KGQuery_resolve_same_id (q : KGQuery) (read : dict -> result (gmap string value))
    (w : world T) (t' : T) (instances : list Instance) (n m : nat) (a b : Instance) :
  cache_ok w ->
  fields_of (query_cls q) = Some read ->
  filter_query client (cls_path (query_cls q)) (query_filter q) (query_context q) (remote w)
    = (t', Ok instances) ->
  forallb (well_formed read) instances = true ->
  instances !! n = Some a ->
  instances !! m = Some b ->
  at_id a = at_id b ->
  ∃ (w' : world T) (objects : list loc) (obj : loc),
    KGQuery_resolve client fields_of q w
    = (w', Ok match objects with
              | [o] => VObj o
              | _ => VList (map VObj objects)
              end)
    ∧ objects !! n = Some obj
    ∧ objects !! m = Some obj.
Proof.
  intros Hok Hf Hq Hwf Hn Hm Hab.
  destruct (KGQuery_resolve_ok client fields_of q read w t' instances Hok Hf Hq Hwf)
    as (w' & objects & _ & Hres & Hall & _ & _).
  destruct (Forall2_lookup_l _ _ _ _ _ Hall Hn) as (x & Hx & (i & k & Hi & Hk & Hc)).
  destruct (Forall2_lookup_l _ _ _ _ _ Hall Hm) as (y & Hy & (j & k' & Hj & Hk' & Hc')).
  exists w', objects, x. split; [exact Hres |]. split; [exact Hx |].
  rewrite Hy. f_equal. congruence.
Qed.

(** X19: resolutions only add.  Through any run of resolutions from a
    consistent cache, every cache entry stays what it was (nothing is
    evicted or replaced), every object stays what it was, and the heap only
    grows. *)
Theorem run_only_adds (rs : list resolution) (w : world T) :
  cache_ok w ->
  let w' := run client fields_of rs w in
  (forall k l, kg_cache w !! k = Some l -> kg_cache w' !! k = Some l)
  ∧ (forall l o, heap w !! l = Some o -> heap w' !! l = Some o)
  ∧ (length (heap w) <= length (heap w'))%nat.
Proof.
  intros Hok w'. destruct (run_inv client fields_of rs w Hok) as [_ [Hpre Hsub]].
  fold w' in Hpre, Hsub.
  split; [intros k l Hl; eapply lookup_weaken; eauto |].
  split; [intros l o Hl; eapply prefix_lookup_Some; eauto |].
  now apply prefix_length.
Qed.

(** X20: at most one cached object per identifier.  After any run of
    resolutions that started with an empty identity cache, two cached
    objects whose identifiers are the same dictionary key are the same
    object. *)
Theorem one_object_per_identifier (rs : list resolution) (w : world T)
    (k1 k2 k : key) (l1 l2 : loc) (o1 o2 : KGObj) :
  kg_cache w = ∅ ->
  let w' := run client fields_of rs w in
  kg_cache w' !! k1 = Some l1 ->
  kg_cache w' !! k2 = Some l2 ->
  heap w' !! l1 = Some o1 ->
  heap w' !! l2 = Some o2 ->
  hash_key (obj_id o1) = Ok k ->
  hash_key (obj_id o2) = Ok k ->
  l1 = l2.
Proof.
  intros He w' H1 H2 Ho1 Ho2 Hk1 Hk2.
  destruct (run_inv client fields_of rs w (cache_ok_empty w He)) as [Hok _].
  fold w' in Hok.
  destruct (Hok k1 l1 H1) as (o1' & k1' & Ho1' & Hk1' & Hc1).
  destruct (Hok k2 l2 H2) as (o2' & k2' & Ho2' & Hk2' & Hc2).
  assert (o1' = o1) as -> by congruence.
  assert (o2' = o2) as -> by congruence.
  assert (k1' = k) as -> by congruence.
  assert (k2' = k) as -> by congruence.
  congruence.
Qed.

(** X21: a proxy that is not cached asks the client once and caches what
    it gets under the identifier of the proxy and under the ["@id"] of the
    document.  When that ["@id"] is cached already, the cached object is
    returned and no object is built; otherwise one object is built, whose
    identifier is the ["@id"] of the document, not the one of the proxy. *)
Theorem KGProxy_resolve_miss (p : KGProxy) (kp k : key) (w : world T) (t' : T)
    (instance : Instance) (read : dict -> result (gmap string value)) (i : json)
    (attrs : gmap string value) (found : option loc) :
  hash_key (proxy_id p) = Ok kp ->
  kg_cache w !! kp = None ->
  instance_from_full_uri client (proxy_id p) (remote w) = (t', Ok instance) ->
  fields_of (proxy_cls p) = Some read ->
  at_id instance = Ok i ->
  hash_key i = Ok k ->
  read (data instance) = Ok attrs ->
  kg_cache w !! k = found ->
  KGProxy_resolve client fields_of p w
  = match found with
    | Some obj =>
        ({| heap := heap w; kg_cache := <[kp := obj]> (kg_cache w);
            remote := t'; calls := calls w ++ [InstanceFromFullUri (proxy_id p)] |},
         Ok obj)
    | None =>
        ({| heap := heap w ++ [obj_of (proxy_cls p) attrs i instance];
            kg_cache := <[kp := length (heap w)]> (<[k := length (heap w)]> (kg_cache w));
            remote := t'; calls := calls w ++ [InstanceFromFullUri (proxy_id p)] |},
         Ok (length (heap w)))
    end.
Proof.
  intros Hkp Hc Hu Hf Hi Hk Hr Hfound.
  rewrite KGProxy_resolve_run, Hkp, Hc, Hu, from_kg_instance_run, Hf, Hi, Hk.
  simpl. rewrite Hfound. destruct found as [obj|]; [reflexivity |].
  now rewrite Hr.
Qed.

Lemma from_kg_instance_quiet (cls : KGClass) (instance : Instance) (w : world T) :
  calls (fst (from_kg_instance fields_of cls instance w)) = calls w
  ∧ remote (fst (from_kg_instance fields_of cls instance w)) = remote w.
Proof.
  rewrite from_kg_instance_run.
  repeat match goal with
         | |- context [match ?x with _ => _ end] => destruct x
         end; now split.
Qed.

Lemma mapM_from_kg_instance_quiet (cls : KGClass) (instances : list Instance) (w : world T) :
  calls (fst (mapM (from_kg_instance fields_of cls) instances w)) = calls w
  ∧ remote (fst (mapM (from_kg_instance fields_of cls) instances w)) = remote w.
Proof.
  revert w. induction instances as [|x xs IH]; intros w; [now split |].
  rewrite mapM_cons.
  destruct (from_kg_instance_quiet cls x w) as [Hc Hr].
  destruct (from_kg_instance fields_of cls x w) as [w1 [y|e]]; simpl in *; [| now split].
  destruct (IH w1) as [Hc1 Hr1].
  destruct (mapM (from_kg_instance fields_of cls) xs w1) as [w2 [ys|e]];
    simpl in *; split; congruence.
Qed.

Lemma forM_cons {A} (f : A -> M unit) (x : A) (xs : list A) (w : world T) :
  forM f (x :: xs) w =
    match f x w with
    | (w1, Ok _) => forM f xs w1
    | (w1, Raise e) => (w1, Raise e)
    end.
Proof. reflexivity. Qed.

Lemma cache_again_quiet (obj : loc) (w : world T) :
  calls (fst ((o ← get_obj obj; cache_setitem (obj_id o) obj) w)) = calls w
  ∧ remote (fst ((o ← get_obj obj; cache_setitem (obj_id o) obj) w)) = remote w.
Proof.
  unfold get_obj, cache_setitem, cache_put, lift, mbind, M_bind.
  destruct (heap w !! obj) as [o|]; [| now split].
  destruct (hash_key (obj_id o)) as [k|]; now split.
Qed.

Lemma forM_cache_quiet (objects : list loc) (w : world T) :
  calls (fst (forM (fun obj => o ← get_obj obj; cache_setitem (obj_id o) obj) objects w))
  = calls w
  ∧ remote (fst (forM (fun obj => o ← get_obj obj; cache_setitem (obj_id o) obj) objects w))
    = remote w.
Proof.
  revert w. induction objects as [|obj objs IH]; intros w; [now split |].
  rewrite forM_cons.
  destruct (cache_again_quiet obj w) as [Hc Hr].
  destruct ((o ← get_obj obj; cache_setitem (obj_id o) obj) w) as [w1 [[]|e]];
    simpl in *; [| now split].
  destruct (IH w1) as [Hc1 Hr1]. split; congruence.
Qed.

(** X22: resolving a query calls the client exactly once, for the
    listing, whatever the outcome (also when the listing or a document
    fails); the caching factory itself never calls the client. *)
Theorem KGQuery_resolve_one_call (q : KGQuery) (cls : KGClass) (instance : Instance)
    (w : world T) :
  calls (fst (KGQuery_resolve client fields_of q w)) = calls w ++ [listing q]
  ∧ calls (fst (from_kg_instance fields_of cls instance w)) = calls w
  ∧ remote (fst (from_kg_instance fields_of cls instance w)) = remote w.
Proof.
  split; [| apply from_kg_instance_quiet].
  rewrite KGQuery_resolve_run.
  destruct (filter_query client _ _ _ (remote w)) as [t' [instances|e]]; [| reflexivity].
  destruct (mapM_from_kg_instance_quiet (query_cls q) instances
              (answered w (listing q) t')) as [Hc _].
  destruct (mapM _ instances _) as [w1 [objects|e]]; simpl in Hc; [| exact Hc].
  destruct (forM_cache_quiet objects w1) as [Hc1 _].
  destruct (forM _ objects w1) as [w2 [[]|e]]; simpl in *; congruence.
Qed.
End ResolutionEdges.

(** *** The edge cases on the store in memory *)

Lemma saved_object_resolves_witness :
  let w1 := fst (KGObject_save Store.client 0 Store.ada_doc true (Store.with_ada [])) in
  let id := "neuralactivity/core/person/v0.1.0/0" in
  KGProxy_resolve Store.client Store.fields_of (Store.proxy id) w1 = (w1, Ok 0)
  ∧ from_kg_instance Store.fields_of Store.Person (Store.doc id "Ada Lovelace") w1
    = (w1, Ok 0).
Proof.
  intros w1 id.
  pose (created := {| data := [("@id", JStr id); ("@type", JStr "nsg:Person");
                               ("name", JStr "Ada Lovelace")] |}).
  destruct (saved_object_resolves Store.client Store.fields_of 0 (Store.with_ada [])
              Store.ada (VStr "Ada Lovelace") [] [created] created (JStr id) (KStr id)
              Store.ada_doc true eq_refl eq_refl eq_refl eq_refl eq_refl eq_refl eq_refl)
    as [Hproxy Hfactory].
  split.
  - exact (Hproxy (Store.proxy id) eq_refl).
  - exact (Hfactory Store.Person Store.read_name (Store.doc id "Ada Lovelace")
             eq_refl eq_refl).
Defined.

Lemma adopted_object_not_cached_witness :
  let st := [Store.doc "kg:person/1" "Ada Lovelace"] in
  let w1 := fst (KGObject_save Store.client 0 Store.ada_doc true (Store.with_ada st)) in
  let w2 := fst (KGProxy_resolve Store.client Store.fields_of (Store.proxy "kg:person/1") w1) in
  kg_cache w1 = ∅
  ∧ KGProxy_resolve Store.client Store.fields_of (Store.proxy "kg:person/1") w1 = (w2, Ok 1)
  ∧ obj_id <$> heap w2 !! 0 = Some (JStr "kg:person/1")
  ∧ obj_id <$> heap w2 !! 1 = Some (JStr "kg:person/1").
Proof.
  intros st w1 w2.
  destruct (adopted_object_not_cached Store.client Store.fields_of 0 (Store.with_ada st)
              Store.ada (VStr "Ada Lovelace") st st (Store.doc "kg:person/1" "Ada Lovelace")
              [] (JStr "kg:person/1") (KStr "kg:person/1") Store.ada_doc
              (Store.proxy "kg:person/1") Store.read_name
              (Store.doc "kg:person/1" "Ada Lovelace") {["name" := VStr "Ada Lovelace"]}
              eq_refl eq_refl eq_refl eq_refl eq_refl eq_refl eq_refl eq_refl eq_refl
              eq_refl eq_refl eq_refl) as (Hc & Hres & _ & Hself & Hnew).
  fold w1 in Hc, Hres, Hself, Hnew. fold w2 in Hres, Hself, Hnew.
  split; [exact Hc |]. split; [exact Hres |].
  split; [exact (f_equal (fmap obj_id) Hself) |].
  exact (f_equal (fmap obj_id) Hnew).
Defined.

Lemma class_without_factory_witness :
  let q := {| query_cls := Store.ValidationResult;
              query_filter := name_filter (VStr "Ada Lovelace");
              query_context := name_context |} in
  let none := {| query_cls := Store.ValidationResult;
                 query_filter := name_filter (VStr "Grace Hopper");
                 query_context := name_context |} in
  let w := Store.init Store.people in
  Store.fields_of Store.ValidationResult = None
  ∧ snd (KGQuery_resolve Store.client Store.fields_of q w) = Raise NotImplementedError
  ∧ snd (KGQuery_resolve Store.client Store.fields_of none w) = Ok (VList [])
  ∧ KGProxy_resolve Store.client Store.fields_of
      {| proxy_cls := Store.ValidationResult; proxy_id := JStr "kg:person/1" |} w
    = (answered w (InstanceFromFullUri (JStr "kg:person/1")) Store.people,
       Raise NotImplementedError).
Proof.
  intros q none w. split; [reflexivity |].
  split.
  { destruct (class_without_factory Store.client Store.fields_of Store.ValidationResult
                (Store.doc "kg:person/1" "Ada Lovelace") w q
                {| proxy_cls := Store.ValidationResult; proxy_id := JStr "kg:person/1" |}
                Store.people [Store.doc "kg:person/1" "Ada Lovelace"] (KStr "kg:person/1")
                eq_refl) as (_ & Hq & _).
    now rewrite (Hq eq_refl eq_refl). }
  destruct (class_without_factory Store.client Store.fields_of Store.ValidationResult
              (Store.doc "kg:person/1" "Ada Lovelace") w none
              {| proxy_cls := Store.ValidationResult; proxy_id := JStr "kg:person/1" |}
              Store.people [] (KStr "kg:person/1") eq_refl) as (_ & Hq & Hp).
  split; [now rewrite (Hq eq_refl eq_refl) |].
  apply Hp; reflexivity.
Defined.

Lemma failed_resolution_witness :
  let nameless := {| data := [("@id", JStr "kg:person/9")] |} in
  let w := Store.init Store.people in
  let w2 := fst (KGProxy_resolve Store.client Store.fields_of (Store.proxy "kg:person/9") w) in
  from_kg_instance Store.fields_of Store.Person nameless w = (w, Raise KeyError)
  ∧ snd (KGProxy_resolve Store.client Store.fields_of (Store.proxy "kg:person/9") w)
    = Raise (TransportError "not found")
  ∧ heap w2 = [] ∧ kg_cache w2 = ∅.
Proof.
  intros nameless w w2.
  destruct (failed_resolution Store.client Store.fields_of Store.Person nameless
              (Store.proxy "kg:person/9") w
              (fst (from_kg_instance Store.fields_of Store.Person nameless w)) w2
              KeyError (TransportError "not found")
              (fun _ _ => raise ValueError)) as (Hf & Hp & _).
  assert (from_kg_instance Store.fields_of Store.Person nameless w
          = (fst (from_kg_instance Store.fields_of Store.Person nameless w), Raise KeyError))
    as Hrun by (vm_compute; reflexivity).
  split; [rewrite Hrun; f_equal; now apply Hf |].
  assert (KGProxy_resolve Store.client Store.fields_of (Store.proxy "kg:person/9") w
          = (w2, Raise (TransportError "not found"))) as Hrun2 by (vm_compute; reflexivity).
  split; [now rewrite Hrun2 |].
  exact (Hp Hrun2).
Defined.

Lemma resolution_idempotent_witness :
  let w := Store.init Store.people in
  let d := Store.doc "kg:person/1" "Ada Lovelace" in
  let w1 := fst (from_kg_instance Store.fields_of Store.Person d w) in
  let w2 := fst (KGProxy_resolve Store.client Store.fields_of (Store.proxy "kg:person/2") w) in
  from_kg_instance Store.fields_of Store.Person d w = (w1, Ok 0)
  ∧ from_kg_instance Store.fields_of Store.Person d w1 = (w1, Ok 0)
  ∧ KGProxy_resolve Store.client Store.fields_of (Store.proxy "kg:person/2") w = (w2, Ok 0)
  ∧ KGProxy_resolve Store.client Store.fields_of (Store.proxy "kg:person/2") w2 = (w2, Ok 0).
Proof.
  intros w d w1 w2.
  assert (from_kg_instance Store.fields_of Store.Person d w = (w1, Ok 0)) as H1
    by (vm_compute; reflexivity).
  assert (KGProxy_resolve Store.client Store.fields_of (Store.proxy "kg:person/2") w
          = (w2, Ok 0)) as H2 by (vm_compute; reflexivity).
  destruct (resolution_idempotent Store.client Store.fields_of Store.Person d
              (Store.proxy "kg:person/2") w w1 w2 0 0) as [Hf Hp].
  split; [exact H1 |]. split; [exact (Hf H1) |]. split; [exact H2 | exact (Hp H2)].
Defined.

Lemma KGQuery_resolve_same_id_witness :
  let twice := [Store.doc "kg:person/2" "Alan Turing"; Store.doc "kg:person/3" "Alan Turing";
                Store.doc "kg:person/2" "Alan Turing"] in
  let w := Store.init twice in
  cache_ok w
  ∧ ∃ (w' : world Store.state) (objects : list loc) (obj : loc),
      KGQuery_resolve Store.client Store.fields_of (Store.by_name "Alan Turing") w
      = (w', Ok match objects with
                | [o] => VObj o
                | _ => VList (map VObj objects)
                end)
      ∧ objects !! 0 = Some obj
      ∧ objects !! 2 = Some obj.
Proof.
  intros twice w.
  assert (cache_ok w) as Hok by (now apply cache_ok_empty).
  split; [exact Hok |].
  exact (KGQuery_resolve_same_id Store.client Store.fields_of (Store.by_name "Alan Turing")
           Store.read_name w twice twice 0 2
           (Store.doc "kg:person/2" "Alan Turing") (Store.doc "kg:person/2" "Alan Turing")
           Hok eq_refl eq_refl eq_refl eq_refl eq_refl eq_refl).
Defined.

Lemma run_only_adds_witness :
  let w := run Store.client Store.fields_of [ByProxy (Store.proxy "kg:person/1")]
             (Store.init Store.people) in
  let w' := run Store.client Store.fields_of
              [ByQuery (Store.by_name "Alan Turing"); ByProxy (Store.proxy "kg:person/3")] w in
  cache_ok w
  ∧ kg_cache w !! KStr "kg:person/1" = Some 0
  ∧ kg_cache w' !! KStr "kg:person/1" = Some 0
  ∧ (length (heap w) <= length (heap w'))%nat.
Proof.
  intros w w'.
  assert (cache_ok w) as Hok.
  { apply (run_inv Store.client Store.fields_of). now apply cache_ok_empty. }
  assert (kg_cache w !! KStr "kg:person/1" = Some 0) as Hc by (vm_compute; reflexivity).
  destruct (run_only_adds Store.client Store.fields_of
              [ByQuery (Store.by_name "Alan Turing"); ByProxy (Store.proxy "kg:person/3")]
              w Hok) as (Hcache & _ & Hlen).
  split; [exact Hok |]. split; [exact Hc |].
  split; [exact (Hcache _ _ Hc) | exact Hlen].
Defined.

Lemma one_object_per_identifier_witness :
  let w := Store.init Store.people in
  let rs := [ByProxy (Store.proxy "kg:person/1"); ByQuery (Store.by_name "Ada Lovelace")] in
  let w' := run Store.client Store.fields_of rs w in
  kg_cache w = ∅
  ∧ kg_cache w' !! KStr "kg:person/1" = Some 0
  ∧ (forall l o, kg_cache w' !! KStr "kg:person/1" = Some l ->
                 heap w' !! l = Some o ->
                 hash_key (obj_id o) = Ok (KStr "kg:person/1") -> 0 = l).
Proof.
  intros w rs w'.
  assert (kg_cache w' !! KStr "kg:person/1" = Some 0) as Hc by (vm_compute; reflexivity).
  split; [reflexivity |]. split; [exact Hc |].
  intros l o Hl Ho Hk.
  assert (heap w' !! 0 = Some (obj_of Store.Person {["name" := VStr "Ada Lovelace"]}
                                 (JStr "kg:person/1")
                                 (Store.doc "kg:person/1" "Ada Lovelace"))) as H0
    by (vm_compute; reflexivity).
  exact (one_object_per_identifier Store.client Store.fields_of rs w
           (KStr "kg:person/1") (KStr "kg:person/1") (KStr "kg:person/1") 0 l _ o
           eq_refl Hc Hl H0 Ho eq_refl Hk).
Defined.

Lemma KGProxy_resolve_miss_witness :
  let w := Store.init Store.people in
  let d := Store.doc "kg:person/2" "Alan Turing" in
  KGProxy_resolve Store.client Store.fields_of (Store.proxy "kg:person/2") w
  = ({| heap := [obj_of Store.Person {["name" := VStr "Alan Turing"]} (JStr "kg:person/2") d];
        kg_cache := <[KStr "kg:person/2" := 0]> (<[KStr "kg:person/2" := 0]> ∅);
        remote := Store.people;
        calls := [InstanceFromFullUri (JStr "kg:person/2")] |}, Ok 0).
Proof.
  intros w d.
  exact (KGProxy_resolve_miss Store.client Store.fields_of (Store.proxy "kg:person/2")
           (KStr "kg:person/2") (KStr "kg:person/2") w Store.people d Store.read_name
           (JStr "kg:person/2") {["name" := VStr "Alan Turing"]} None
           eq_refl eq_refl eq_refl eq_refl eq_refl eq_refl eq_refl eq_refl).
Defined.

(** * Ontology-term fields, saved and loaded *)

Lemma from_jsonld_of_term (c : TermClass) (lbl i : json) (t : OntologyTerm) :
  OntologyTerm_init c lbl i = Ok t ->
  from_jsonld c (to_jsonld t) = Ok (VTerm t).
Proof.
  intros H0. destruct (OntologyTerm_init_fields c lbl i t H0) as (Hc & Hlbl & Hmap).
  unfold to_jsonld.
  rewrite (from_jsonld_dict c [("@id", iri t); ("label", label t)]
             (label t) (iri t) eq_refl eq_refl).
  unfold OntologyTerm_init. rewrite Hlbl.
  destruct (truthy (iri t)) eqn:Hiri.
  - destruct t; simpl in *; now subst.
  - rewrite (Hmap eq_refl). destruct t; simpl in *; now subst.
Qed.

(** X23: an ontology-term field survives [save] and [from_kg_instance]
    up to the collapse of one-element lists.  For terms built by the
    constructor of the class, what [save] writes for a single term is read
    back by [build_kg_object] as that term, and what it writes for a list
    of terms as the list of these terms, except that a list of exactly one
    term comes back as the term itself, not as a list. *)
Theorem terms_round_trip (c : TermClass) (t : OntologyTerm) (ts : list OntologyTerm) :
  (exists lbl i, OntologyTerm_init c lbl i = Ok t) ->
  Forall (fun t' => exists lbl i, OntologyTerm_init c lbl i = Ok t') ts ->
  (∃ j, terms_to_jsonld (VTerm t) = Ok j
        ∧ build_kg_object (TOntologyTerm c) j = Ok (VTerm t))
  ∧ (∃ j, terms_to_jsonld (VList (map VTerm ts)) = Ok j
          ∧ build_kg_object (TOntologyTerm c) j
            = Ok match ts with
                 | [t'] => VTerm t'
                 | _ => VList (map VTerm ts)
                 end).
Proof.
  intros (lbl & i & Ht) Hts. split.
  - exists (to_jsonld t). split; [reflexivity |].
    unfold to_jsonld.
    rewrite (build_kg_object_bare _ [("@id", iri t); ("label", label t)] eq_refl).
    rewrite build_kg_object_list. cbn [rmap build_item].
    change (JDict [("@id", iri t); ("label", label t)]) with (to_jsonld t).
    now rewrite (from_jsonld_of_term c lbl i t Ht).
  - exists (JList (map to_jsonld ts)). split.
    + unfold terms_to_jsonld, mbind, result_bind, rbind.
      rewrite (rmap_Forall2 value_to_jsonld (map VTerm ts) (map to_jsonld ts));
        [reflexivity |].
      apply Forall2_fmap. clear. induction ts; constructor; auto.
    + rewrite build_kg_object_list.
      rewrite (rmap_Forall2 (build_item (TOntologyTerm c)) (map to_jsonld ts)
                 (map VTerm ts)).
      * destruct ts as [|t1 [|t2 ts']]; reflexivity.
      * apply Forall2_fmap. induction Hts as [|t' ts' (lbl' & i' & Ht') _ IH];
          constructor; auto.
        simpl. now apply (from_jsonld_of_term c lbl' i').
Qed.

Lemma terms_round_trip_witness :
  let rat := {| term_cls := Store.Species; label := JStr "Rattus norvegicus";
                iri := JStr "http://purl.obolibrary.org/obo/NCBITaxon_10116" |} in
  let mouse := {| term_cls := Store.Species; label := JStr "Mus musculus";
                  iri := JStr "http://purl.obolibrary.org/obo/NCBITaxon_10090" |} in
  OntologyTerm_init Store.Species (JStr "Rattus norvegicus") JNull = Ok rat
  ∧ (∃ j, terms_to_jsonld (VList [VTerm rat; VTerm mouse]) = Ok j
          ∧ build_kg_object (TOntologyTerm Store.Species) j
            = Ok (VList [VTerm rat; VTerm mouse]))
  ∧ (∃ j, terms_to_jsonld (VList [VTerm rat]) = Ok j
          ∧ build_kg_object (TOntologyTerm Store.Species) j = Ok (VTerm rat)).
Proof.
  intros rat mouse.
  assert (exists lbl i, OntologyTerm_init Store.Species lbl i = Ok rat) as Hrat
    by (exists (JStr "Rattus norvegicus"), JNull; reflexivity).
  assert (exists lbl i, OntologyTerm_init Store.Species lbl i = Ok mouse) as Hmouse
    by (exists (JStr "Mus musculus"), JNull; reflexivity).
  split; [reflexivity |]. split.
  - refine (proj2 (terms_round_trip Store.Species rat [rat; mouse] Hrat _)).
    repeat constructor; assumption.
  - refine (proj2 (terms_round_trip Store.Species rat [rat] Hrat _)).
    repeat constructor; assumption.
Defined.

(** * A create and the invariant of the cache *)

(** X24: a create keeps the identity cache consistent.  When the store
    answers the create with an identifier that is not cached yet, for an
    object that is not cached yet, the cache after the [save] is consistent
    again and holds the object under its new identifier. *)
Theorem create_keeps_cache_ok {T : Type} (client : Client T) (self : loc) (w : world T)
    (o : KGObj) (name : value) (t1 t2 : T) (inst : Instance) (i : json) (k : key)
    (doc : json) (exists_ok : bool) :
  heap w !! self = Some o ->
  truthy (obj_id o) = false ->
  get_name o = Ok name ->
  filter_query client (cls_path (obj_cls o)) (name_filter name) name_context (remote w)
    = (t1, Ok []) ->
  create_new_instance client (cls_path (obj_cls o)) doc t1 = (t2, Ok inst) ->
  at_id inst = Ok i ->
  hash_key i = Ok k ->
  cache_ok w ->
  kg_cache w !! k = None ->
  (forall k0, kg_cache w !! k0 ≠ Some self) ->
  let w1 := fst (KGObject_save client self doc exists_ok w) in
  cache_ok w1
  ∧ kg_cache w1 !! k = Some self
  ∧ cached w1 self.
Proof.
  intros Ho Ht Hn Hq Hc Hi Hk Hok Hnone Hself w1.
  assert (cache_ok w1) as Hok1.
  { exact (KGObject_save_create_cache_ok client self w o name t1 t2 inst i k doc exists_ok
             Ho Ht Hn Hq Hc Hi Hk Hok Hnone Hself). }
  assert (kg_cache w1 !! k = Some self) as Hc1.
  { unfold w1.
    rewrite (KGObject_save_create client self w o name t1 t2 inst i k doc exists_ok
               Ho Ht Hn Hq Hc Hi Hk).
    simpl. apply lookup_insert_eq. }
  split; [exact Hok1 |]. split; [exact Hc1 |].
  exact (Hok1 k self Hc1).
Qed.

Lemma create_keeps_cache_ok_witness :
  let w := Store.with_ada [] in
  let w1 := fst (KGObject_save Store.client 0 Store.ada_doc true w) in
  cache_ok w
  ∧ cache_ok w1
  ∧ kg_cache w1 !! KStr "neuralactivity/core/person/v0.1.0/0" = Some 0.
Proof.
  intros w w1.
  assert (cache_ok w) as Hok by (now apply cache_ok_empty).
  assert (forall k0, kg_cache w !! k0 ≠ Some 0) as Hfree.
  { intros k0 H. unfold w in H. simpl in H. rewrite lookup_empty in H. discriminate. }
  pose (created := {| data := [("@id", JStr "neuralactivity/core/person/v0.1.0/0");
                               ("@type", JStr "nsg:Person");
                               ("name", JStr "Ada Lovelace")] |}).
  destruct (create_keeps_cache_ok Store.client 0 w Store.ada (VStr "Ada Lovelace")
              [] [created] created (JStr "neuralactivity/core/person/v0.1.0/0")
              (KStr "neuralactivity/core/person/v0.1.0/0") Store.ada_doc true
              eq_refl eq_refl eq_refl eq_refl eq_refl eq_refl eq_refl Hok eq_refl Hfree)
    as (Hok1 & Hc1 & _).
  split; [exact Hok |]. split; [exact Hok1 | exact Hc1].
Defined.
